(** * Playlist page script: fetch, join, format and render

    A shallow embedding of the playlist script (the file that defines
    [formatDuration], [truncateText], [fetchPlaylistVideos],
    [createVideoCard], [renderVideos] and [initializePlaylist]) and of
    [js/config.js], followed by the properties of the specification that
    can be stated over it.

    Conventions of the embedding.
    - A JavaScript string is the list of its UTF-16 code units, so that
      [length], [substring], [trim] and the regular expression of
      [formatDuration] see exactly what the engine sees.
    - [undefined] in an optional position is [None].
    - A function that may throw returns an [outcome]; the asynchronous
      functions run their awaits one after the other, so they are state
      transformers over a [World] holding the list of requests issued, the
      console and the two page elements the script writes to.
    - The [do ... while] loop takes fuel; running out of fuel is an
      outcome of its own, distinct from returning and from throwing. *)

From Stdlib Require Import String Ascii Decimal.
From Stdlib Require Import List Bool Arith NArith ZArith Lia.
Import ListNotations.

Set Implicit Arguments.

(* ================================================================== *)
(** ** JavaScript strings *)
(* ================================================================== *)

Module JS.

(** One UTF-16 code unit. *)
Abbreviation char := N.

Abbreviation jsstring := (list char).

(** Literals.  The text of a literal is kept as its UTF-8 bytes; [utf16]
  turns them into the code units the engine holds: one unit for a
  character of the basic plane, a surrogate pair above it. *)
Fixpoint utf16 (bytes : list N) : jsstring :=
(match bytes with
 | [] => []
 | b :: rest =>
     if b <? 128 then b :: utf16 rest
     else if b <? 224 then
       match rest with
       | c :: rest' => ((b mod 32) * 64 + c mod 64) :: utf16 rest'
       | _ => []
       end
     else if b <? 240 then
       match rest with
       | c :: d :: rest' =>
           ((b mod 16) * 4096 + (c mod 64) * 64 + d mod 64) :: utf16 rest'
       | _ => []
       end
     else
       match rest with
       | c :: d :: e :: rest' =>
           let v := (b mod 8) * 262144 + (c mod 64) * 4096
                    + (d mod 64) * 64 + e mod 64 - 65536 in
           (55296 + v / 1024) :: (56320 + v mod 1024) :: utf16 rest'
       | _ => []
       end
 end)%N.

Definition lit (s : string) : jsstring :=
utf16 (map N_of_ascii (list_ascii_of_string s)).

Definition char_eqb (a b : char) : bool := N.eqb a b.

(** [===] on two strings. *)
Fixpoint eqb (s t : jsstring) : bool :=
match s, t with
| [], [] => true
| a :: s', b :: t' => char_eqb a b && eqb s' t'
| _, _ => false
end.

(** Truthiness of a string: every string but the empty one. *)
Definition truthy (s : jsstring) : bool :=
match s with [] => false | _ :: _ => true end.

(** Truthiness of a possibly undefined string. *)
Definition truthy_opt (o : option jsstring) : bool :=
match o with Some s => truthy s | None => false end.

(** [a || b] where [a] may be undefined and [b] is a string. *)
Definition or_default (a : option jsstring) (b : jsstring) : jsstring :=
match a with
| Some s => if truthy s then s else b
| None => b
end.

(** [a || b] where both sides may be undefined. *)
Definition or_else (a b : option jsstring) : option jsstring :=
if truthy_opt a then a else b.

(** Optional chaining [o?.f]: undefined when [o] is. *)
Definition chain {A B : Type} (f : A -> option B) (o : option A) : option B :=
match o with Some a => f a | None => None end.

(** A possibly undefined string inside a template literal. *)
Definition interpolate (o : option jsstring) : jsstring :=
match o with Some s => s | None => lit "undefined" end.

(** [String.prototype.startsWith]-style prefix test, used by the
  regular-expression search. *)
Fixpoint prefixb (p s : jsstring) : bool :=
match p, s with
| [], _ => true
| a :: p', b :: s' => char_eqb a b && prefixb p' s'
| _ :: _, [] => false
end.

(** [s.replace(c, '')] for a one-character pattern: the first occurrence
  of the pattern is removed, later ones are kept. *)
Fixpoint remove_first (c : char) (s : jsstring) : jsstring :=
match s with
| [] => []
| a :: s' => if char_eqb a c then s' else a :: remove_first c s'
end.

(** [s.padStart(n, c)] for a one-character filler. *)
Definition padStart (n : nat) (c : char) (s : jsstring) : jsstring :=
repeat c (n - length s) ++ s.

(** [String.prototype.substring(0, n)] for an integer [n]: the end index
  is clamped to the interval from 0 to the length. *)
Definition substring0 (s : jsstring) (n : Z) : jsstring :=
firstn (Z.to_nat n) s.

(** White space and line terminators, as [String.prototype.trim] removes
  them. *)
Definition is_space (c : char) : bool :=
((9 <=? c) && (c <=? 13) || (c =? 32) || (c =? 160) || (c =? 5760)
 || (8192 <=? c) && (c <=? 8202) || (c =? 8232) || (c =? 8233)
 || (c =? 8239) || (c =? 8287) || (c =? 12288) || (c =? 65279))%N.

Fixpoint trimStart (s : jsstring) : jsstring :=
match s with
| [] => []
| c :: s' => if is_space c then trimStart s' else s
end.

Definition trimEnd (s : jsstring) : jsstring :=
rev (trimStart (rev s)).

(** [String.prototype.trim] strips both ends. *)
Definition trim (s : jsstring) : jsstring := trimEnd (trimStart s).

(** [Array.prototype.join]. *)
Fixpoint join (sep : jsstring) (l : list jsstring) : jsstring :=
match l with
| [] => []
| [s] => s
| s :: rest => s ++ sep ++ join sep rest
end.

(** Decimal digits of a natural number, as a template literal prints a
  non-negative integer. *)
Fixpoint digits_of_uint (d : Decimal.uint) : jsstring :=
match d with
| Nil => []
| D0 d' => 48%N :: digits_of_uint d'
| D1 d' => 49%N :: digits_of_uint d'
| D2 d' => 50%N :: digits_of_uint d'
| D3 d' => 51%N :: digits_of_uint d'
| D4 d' => 52%N :: digits_of_uint d'
| D5 d' => 53%N :: digits_of_uint d'
| D6 d' => 54%N :: digits_of_uint d'
| D7 d' => 55%N :: digits_of_uint d'
| D8 d' => 56%N :: digits_of_uint d'
| D9 d' => 57%N :: digits_of_uint d'
end.

Definition of_nat (n : nat) : jsstring := digits_of_uint (Nat.to_uint n).

(** The character class [\d] of a regular expression without the unicode
  flag. *)
Definition is_digit (c : char) : bool := ((48 <=? c) && (c <=? 57))%N.

(** The double quote, which the page templates contain. *)
Definition dq : jsstring := [34%N].

End JS.

Import JS.

(* ================================================================== *)
(** ** Outcomes *)
(* ================================================================== *)

(** What the script can throw: an [Error] it builds itself, with its
    message; the engine's [TypeError] for [null[property]] or
    [null.property = ...], with the property; the engine's
    [ReferenceError] for a name that is not declared. *)
Inductive exn : Type :=
| Error (message : jsstring)
| TypeError (property : jsstring)
| ReferenceError (name : jsstring).

Inductive outcome (A : Type) : Type :=
| Returned (a : A)
| Thrown (e : exn)
| OutOfFuel.

Arguments Thrown {A} e.
Arguments OutOfFuel {A}.

(* ================================================================== *)
(** ** Presentation helpers *)
(* ================================================================== *)

(** *** The regular expression of [formatDuration]

    [/PT(\d+H)?(\d+M)?(\d+S)?/] has no anchor and no flag.  The search
    tries the start positions from left to right; at a position where the
    literal [PT] is read the three optional groups cannot make the match
    fail, so the match is at the first occurrence of [PT]. *)

(** The longest run of digits at the front of a string, and what follows. *)
Fixpoint span_digits (s : jsstring) : jsstring * jsstring :=
  match s with
  | [] => ([], [])
  | c :: s' =>
      if is_digit c
      then let (ds, rest) := span_digits s' in (c :: ds, rest)
      else ([], s)
  end.

(** One group [(\d+X)?] read at the front of [s]: the captured text, or
    [None] when the group does not take part, and the rest of the input.
    [\d+] is greedy; giving digits back never helps, since the character
    after a shorter run is a digit and not the unit letter. *)
Definition group (unit : char) (s : jsstring) : option jsstring * jsstring :=
  match span_digits s with
  | ((_ :: _) as ds, c :: rest) =>
      if char_eqb c unit then (Some (ds ++ [unit]), rest) else (None, s)
  | _ => (None, s)
  end.

(** The three captures, read right after [PT]. *)
Definition groups (s : jsstring)
  : option jsstring * option jsstring * option jsstring :=
  let (h, s1) := group 72%N s in
  let (m, s2) := group 77%N s1 in
  let (sec, _) := group 83%N s2 in
  (h, m, sec).

(** [duration.match(...)]: [None] is the [null] of a failed search. *)
Fixpoint regex_match (s : jsstring)
  : option (option jsstring * option jsstring * option jsstring) :=
  match s with
  | [] => None
  | c :: s' =>
      if prefixb (lit "PT") s
      then Some (groups (skipn 2 s))
      else regex_match s'
  end.

Definition formatDuration (duration : jsstring) : outcome jsstring :=
  match regex_match duration with
  | None => Thrown (TypeError (lit "1"))
  | Some (m1, m2, m3) =>
      let hours := remove_first 72%N (or_default m1 []) in
      let minutes := remove_first 77%N (or_default m2 []) in
      let seconds := remove_first 83%N (or_default m3 []) in
      if truthy hours
      then Returned (hours ++ lit ":" ++ padStart 2 48%N minutes
                           ++ lit ":" ++ padStart 2 48%N seconds)
      else Returned (or_default (Some minutes) (lit "0")
                           ++ lit ":" ++ padStart 2 48%N seconds)
  end.

(** *** [truncateText] *)

Definition truncateText (text : jsstring) (maxLength : Z) : jsstring :=
  if (Z.of_nat (length text) <=? maxLength)%Z then text
  else trim (substring0 text maxLength) ++ lit "...".

(* ================================================================== *)
(** ** Data model *)
(* ================================================================== *)

(** A record of the playlist listing, with the fields the script reads:
    [item.contentDetails.videoId], [item.snippet.title],
    [item.snippet.description], [item.snippet.thumbnails.high?.url],
    [item.snippet.thumbnails.medium?.url], [item.snippet.publishedAt]. *)
Module Item.
Record Thumbnail : Type := { url : option jsstring }.
Record Thumbnails : Type :=
  { high : option Thumbnail; medium : option Thumbnail }.
Record Snippet : Type :=
  { title : jsstring;
    description : jsstring;
    thumbnails : Thumbnails;
    publishedAt : jsstring }.
Record ContentDetails : Type := { videoId : jsstring }.
Record t : Type := { contentDetails : ContentDetails; snippet : Snippet }.
End Item.

(** A record of the detail lookup: [v.id], [v.contentDetails?.duration],
    [v.statistics?.viewCount]. *)
Module Video.
Record ContentDetails : Type := { duration : option jsstring }.
Record Statistics : Type := { viewCount : option jsstring }.
Record t : Type :=
  { id : jsstring;
    contentDetails : option ContentDetails;
    statistics : option Statistics }.
End Video.

(** The object built by the join of [fetchPlaylistVideos]. *)
Module Enriched.
Record t : Type :=
  { id : jsstring;
    title : jsstring;
    description : jsstring;
    thumbnail : option jsstring;
    publishedAt : jsstring;
    duration : jsstring;
    viewCount : jsstring }.
End Enriched.

(** The body of a listing response: [data.items], [data.nextPageToken]. *)
Module Page.
Record t : Type :=
  { items : list Item.t; nextPageToken : option jsstring }.
End Page.

(** The body of a detail response: [videosData.items]. *)
Module Details.
Record t : Type := { items : list Video.t }.
End Details.

(** What [fetch] resolves to, with the body [response.json()] yields. *)
Record Response (B : Type) : Type :=
  { ok : bool; status : nat; statusText : jsstring; json : B }.

(** The provider.  A response may depend on the requests made before it
    and on the address requested.  The script reads a response to a
    [playlistItems] address as a page and a response to a [videos]
    address as a detail list. *)
Record Network : Type :=
  { playlistItems : list jsstring -> jsstring -> Response Page.t;
    videos : list jsstring -> jsstring -> Response Details.t }.

(** [js/config.js] and the global the hosting page sets. *)
Record Config : Type := { YOUTUBE_API_KEY : option jsstring }.

Record Globals : Type :=
  { CONFIG : option Config;
    YOUTUBE_PLAYLIST_ID : option jsstring }.

(** [CONFIG] as [js/config.js] declares it. *)
Definition config_js : Config :=
  {| YOUTUBE_API_KEY := Some (lit "TU_API_KEY_AQUI") |}.

(** The part of the browser the script acts on: the requests issued so
    far, the console, the [innerHTML] of the [.videos-grid] element and
    the [textContent] of the [.videos-note] element ([None] when the page
    has no such element, where [querySelector] answers [null]). *)
Record World : Type :=
  { requests : list jsstring;
    console : list (jsstring * exn);
    videos_grid : option jsstring;
    videos_note : option jsstring }.

(* ================================================================== *)
(** ** Sequencing *)
(* ================================================================== *)

Definition M (A : Type) : Type := World -> outcome A * World.

Definition ret {A} (a : A) : M A := fun w => (Returned a, w).

Definition throw {A} (e : exn) : M A := fun w => (Thrown e, w).

Definition diverge {A} : M A := fun w => (OutOfFuel, w).

Definition bind {A B} (m : M A) (k : A -> M B) : M B :=
  fun w =>
    match m w with
    | (Returned a, w') => k a w'
    | (Thrown e, w') => (Thrown e, w')
    | (OutOfFuel, w') => (OutOfFuel, w')
    end.

(** [try { body } catch (error) { handler }]. *)
Definition try_catch {A} (body : M A) (handler : exn -> M A) : M A :=
  fun w =>
    match body w with
    | (Thrown e, w') => handler e w'
    | r => r
    end.

Declare Scope js_scope.
Delimit Scope js_scope with js.
Notation "x <- m ;; k" := (bind m (fun x => k))
  (at level 61, m at next level, right associativity) : js_scope.
Notation "m ;;; k" := (bind m (fun _ => k))
  (at level 61, right associativity) : js_scope.
Local Open Scope js_scope.

(** A pure computation that may throw, run inside [M]. *)
Definition lift {A} (o : outcome A) : M A := fun w => (o, w).

(** Field updates of the world. *)
Definition set_requests (w : World) (l : list jsstring) : World :=
  {| requests := l;
     console := console w;
     videos_grid := videos_grid w;
     videos_note := videos_note w |}.

Definition set_console (w : World) (l : list (jsstring * exn)) : World :=
  {| requests := requests w;
     console := l;
     videos_grid := videos_grid w;
     videos_note := videos_note w |}.

Definition set_videos_grid (w : World) (html : jsstring) : World :=
  {| requests := requests w;
     console := console w;
     videos_grid := Some html;
     videos_note := videos_note w |}.

Definition set_videos_note (w : World) (text : jsstring) : World :=
  {| requests := requests w;
     console := console w;
     videos_grid := videos_grid w;
     videos_note := Some text |}.

(** [await fetch(url)] followed by [await response.json()]: the request
    is recorded and the provider's answer to it is handed back. *)
Definition fetch {B} (endpoint : list jsstring -> jsstring -> Response B)
    (address : jsstring) : M (Response B) :=
  fun w =>
    (Returned (endpoint (requests w) address),
     set_requests w (requests w ++ [address])).

(** [console.error(label, error)]. *)
Definition console_error (label : jsstring) (error : exn) : M unit :=
  fun w => (Returned tt, set_console w (console w ++ [(label, error)])).

(** [document.querySelector('.videos-grid').innerHTML = html]: a
    [TypeError] when the page has no such element. *)
Definition set_grid (html : jsstring) : M unit :=
  fun w =>
    match videos_grid w with
    | None => (Thrown (TypeError (lit "innerHTML")), w)
    | Some _ => (Returned tt, set_videos_grid w html)
    end.

(** [if (videosNote) videosNote.textContent = text]. *)
Definition set_note_if_present (text : jsstring) : M unit :=
  fun w =>
    match videos_note w with
    | None => (Returned tt, w)
    | Some _ => (Returned tt, set_videos_note w text)
    end.

(* ================================================================== *)
(** ** [fetchPlaylistVideos] *)
(* ================================================================== *)

Definition YOUTUBE_API_BASE : jsstring :=
  lit "https://www.googleapis.com/youtube/v3".

(** Reading the global [CONFIG]: a [ReferenceError] when [js/config.js]
    was not loaded. *)
Definition read_CONFIG (g : Globals) : outcome Config :=
  match CONFIG g with
  | Some c => Returned c
  | None => Thrown (ReferenceError (lit "CONFIG"))
  end.

Definition playlistUrl (playlistId : option jsstring) (config : Config)
    (nextPageToken : jsstring) : jsstring :=
  YOUTUBE_API_BASE
  ++ lit "/playlistItems?part=snippet,contentDetails&maxResults=50&playlistId="
  ++ interpolate playlistId
  ++ lit "&key=" ++ interpolate (YOUTUBE_API_KEY config)
  ++ (if truthy nextPageToken then lit "&pageToken=" ++ nextPageToken else []).

Definition videosUrl (config : Config) (videoIds : jsstring) : jsstring :=
  YOUTUBE_API_BASE
  ++ lit "/videos?part=contentDetails,statistics&id=" ++ videoIds
  ++ lit "&key=" ++ interpolate (YOUTUBE_API_KEY config).

Definition playlist_error (response : Response Page.t) : exn :=
  Error (lit "Error al obtener la playlist: " ++ of_nat (status response)
         ++ lit " " ++ statusText response).

Definition details_error (videosResponse : Response Details.t) : exn :=
  Error (lit "Error al obtener detalles de vídeos: "
         ++ of_nat (status videosResponse)).

(** The [do { ... } while (nextPageToken)] loop, from the state
    [(allVideos, nextPageToken)] it is entered in. *)
Fixpoint fetch_pages (fuel : nat) (g : Globals) (net : Network)
    (allVideos : list Item.t) (nextPageToken : jsstring)
  : M (list Item.t) :=
  match fuel with
  | O => diverge
  | S fuel' =>
      config <- lift (read_CONFIG g) ;;
      response <- fetch (playlistItems net)
                    (playlistUrl (YOUTUBE_PLAYLIST_ID g) config nextPageToken) ;;
      if negb (ok response) then throw (playlist_error response)
      else
        let data := json response in
        let allVideos := allVideos ++ Page.items data in
        let nextPageToken := or_default (Page.nextPageToken data) [] in
        if truthy nextPageToken
        then fetch_pages fuel' g net allVideos nextPageToken
        else ret allVideos
  end.

(** [videosData.items.find(v => v.id === item.contentDetails.videoId)]:
    the first detail record with the identifier of the item. *)
Definition videoDetails (videosData : Details.t) (item : Item.t)
  : option Video.t :=
  find (fun v => eqb (Video.id v) (Item.videoId (Item.contentDetails item)))
       (Details.items videosData).

(** The callback of [allVideos.map] that builds one enriched video. *)
Definition enrich (videosData : Details.t) (item : Item.t) : Enriched.t :=
  let videoDetails := videoDetails videosData item in
  let thumbnails := Item.thumbnails (Item.snippet item) in
  {| Enriched.id := Item.videoId (Item.contentDetails item);
     Enriched.title := Item.title (Item.snippet item);
     Enriched.description := Item.description (Item.snippet item);
     Enriched.thumbnail :=
       or_else (chain Item.url (Item.high thumbnails))
               (chain Item.url (Item.medium thumbnails));
     Enriched.publishedAt := Item.publishedAt (Item.snippet item);
     Enriched.duration :=
       or_default
         (chain Video.duration
            (chain Video.contentDetails videoDetails))
         (lit "PT0S");
     Enriched.viewCount :=
       or_default
         (chain Video.viewCount
            (chain Video.statistics videoDetails))
         (lit "0") |}.

(** [const videosWithDetails = allVideos.map(item => ...)]. *)
Definition videosWithDetails (allVideos : list Item.t)
    (videosData : Details.t) : list Enriched.t :=
  map (enrich videosData) allVideos.

Definition fetchPlaylistVideos (fuel : nat) (g : Globals) (net : Network)
  : M (list Enriched.t) :=
  try_catch
    (allVideos <- fetch_pages fuel g net [] [] ;;
     let videoIds :=
       join (lit ",")
            (map (fun item => Item.videoId (Item.contentDetails item))
                 allVideos) in
     config <- lift (read_CONFIG g) ;;
     videosResponse <- fetch (videos net) (videosUrl config videoIds) ;;
     if negb (ok videosResponse) then throw (details_error videosResponse)
     else
       let videosData := json videosResponse in
       ret (videosWithDetails allVideos videosData))
    (fun error =>
       console_error (lit "Error fetching playlist videos:") error ;;;
       throw error).

(* ================================================================== *)
(** ** Rendering *)
(* ================================================================== *)

Definition showLoading : M unit :=
  set_grid
    (lit "
        <div class=" ++ dq ++ lit "loading-container" ++ dq ++ lit ">
            <div class=" ++ dq ++ lit "loading-spinner" ++ dq ++ lit "></div>
            <p>Cargando vídeos de la lista de reproducción...</p>
        </div>
    ").

(** The markup [showError] writes: the message, the hint and, when a
    playlist identifier is set, the link to the playlist. *)
Definition error_html (g : Globals) (message : jsstring) : jsstring :=
  let playlistId := YOUTUBE_PLAYLIST_ID g in
    ((lit "
        <div class=" ++ dq ++ lit "error-container" ++ dq ++ lit ">
            <i class=" ++ dq ++ lit "fa-solid fa-exclamation-triangle fa-3x" ++ dq ++ lit "></i>
            <p class=" ++ dq ++ lit "error-message" ++ dq ++ lit ">" ++ message ++ lit "</p>
            <p class=" ++ dq ++ lit "error-hint" ++ dq ++ lit ">Por favor, verifica la configuración de la API key o visita la lista directamente en YouTube.</p>
            ")
     ++ (if truthy_opt playlistId
         then (let playlistId := interpolate playlistId in
               (lit "
            <a href=" ++ dq ++ lit "https://www.youtube.com/playlist?list=" ++ playlistId ++ dq ++ lit " target=" ++ dq ++ lit "_blank" ++ dq ++ lit " rel=" ++ dq ++ lit "noopener noreferrer" ++ dq ++ lit " class=" ++ dq ++ lit "youtube-link-btn" ++ dq ++ lit ">
                <i class=" ++ dq ++ lit "fa-brands fa-youtube" ++ dq ++ lit "></i> Ver en YouTube
            </a>
            "))
         else [])
     ++ (lit "
        </div>
    ")).

Definition showError (g : Globals) (message : jsstring) : M unit :=
  set_grid (error_html g message).

Definition no_videos_html : jsstring :=
  lit "
            <div class=" ++ dq ++ lit "no-videos-container" ++ dq ++ lit ">
                <i class=" ++ dq ++ lit "fa-brands fa-youtube fa-3x" ++ dq ++ lit "></i>
                <p>No se encontraron vídeos en esta lista de reproducción.</p>
            </div>
        ".

Section Locale.

(** What the engine's locale data decides is left open:
    [new Date(s).toLocaleDateString('es-ES', options)] as a function of
    [s], [parseInt(s).toLocaleString('es-ES')] as a function of [s], and
    the [message] the engine gives its own errors. *)
Variable toLocaleDateString_es : jsstring -> jsstring.
Variable parseInt_toLocaleString_es : jsstring -> jsstring.
Variable engine_message : exn -> jsstring.

Definition formatPublishedDate (dateString : jsstring) : jsstring :=
  toLocaleDateString_es dateString.

Definition createVideoCard (video : Enriched.t) : outcome jsstring :=
  match formatDuration (Enriched.duration video) with
  | Returned formattedDuration =>
      let formattedDate := formatPublishedDate (Enriched.publishedAt video) in
      let truncatedDescription :=
        truncateText (Enriched.description video) 120 in
      let formattedViews :=
        parseInt_toLocaleString_es (Enriched.viewCount video) in
      Returned
        (lit "
        <article class=" ++ dq ++ lit "video-card" ++ dq ++ lit ">
            <a href=" ++ dq ++ lit "https://www.youtube.com/watch?v=" ++ Enriched.id video ++ dq ++ lit " target=" ++ dq ++ lit "_blank" ++ dq ++ lit " rel=" ++ dq ++ lit "noopener noreferrer" ++ dq ++ lit ">
                <div class=" ++ dq ++ lit "video-thumbnail" ++ dq ++ lit ">
                    <img src=" ++ dq ++ interpolate (Enriched.thumbnail video) ++ dq ++ lit " alt=" ++ dq ++ Enriched.title video ++ dq ++ lit " loading=" ++ dq ++ lit "lazy" ++ dq ++ lit ">
                    <div class=" ++ dq ++ lit "video-duration" ++ dq ++ lit ">" ++ formattedDuration ++ lit "</div>
                    <div class=" ++ dq ++ lit "play-overlay" ++ dq ++ lit ">
                        <i class=" ++ dq ++ lit "fa-solid fa-play" ++ dq ++ lit "></i>
                    </div>
                </div>
                <div class=" ++ dq ++ lit "video-info" ++ dq ++ lit ">
                    <h3 class=" ++ dq ++ lit "video-title" ++ dq ++ lit ">" ++ Enriched.title video ++ lit "</h3>
                    <p class=" ++ dq ++ lit "video-description" ++ dq ++ lit ">" ++ truncatedDescription ++ lit "</p>
                    <div class=" ++ dq ++ lit "video-meta" ++ dq ++ lit ">
                        <span><i class=" ++ dq ++ lit "fa-solid fa-eye" ++ dq ++ lit "></i> " ++ formattedViews ++ lit " visualizaciones</span>
                        <span><i class=" ++ dq ++ lit "fa-solid fa-calendar" ++ dq ++ lit "></i> " ++ formattedDate ++ lit "</span>
                    </div>
                </div>
            </a>
        </article>
    ")
  | Thrown e => Thrown e
  | OutOfFuel => OutOfFuel
  end.

(** [videos.map(video => createVideoCard(video))]: the cards in order,
    or the first exception. *)
Fixpoint cards (videos : list Enriched.t) : outcome (list jsstring) :=
  match videos with
  | [] => Returned []
  | video :: rest =>
      match createVideoCard video with
      | Returned card =>
          match cards rest with
          | Returned l => Returned (card :: l)
          | Thrown e => Thrown e
          | OutOfFuel => OutOfFuel
          end
      | Thrown e => Thrown e
      | OutOfFuel => OutOfFuel
      end
  end.

Definition videos_note_text (n : nat) : jsstring :=
  of_nat n ++ lit " vídeo" ++ (if negb (n =? 1) then lit "s" else [])
  ++ lit " en esta lista de reproducción.".

Definition renderVideos (videos : list Enriched.t) : M unit :=
  if length videos =? 0 then set_grid no_videos_html
  else
    l <- lift (cards videos) ;;
    let videosHTML := join [] l in
    set_grid videosHTML ;;;
    set_note_if_present (videos_note_text (length videos)).

Definition message (error : exn) : jsstring :=
  match error with
  | Error m => m
  | _ => engine_message error
  end.

Definition msg_no_config : jsstring :=
  lit "⚠️ Archivo de configuración no encontrado. Por favor, crea el archivo js/config.js basándote en config.example.js".

Definition msg_no_key : jsstring :=
  lit "⚠️ API Key no configurada. Por favor, configura tu API key de YouTube en el archivo js/config.js".

Definition msg_no_playlist : jsstring :=
  lit "⚠️ ID de lista de reproducción no definido. Por favor define window.YOUTUBE_PLAYLIST_ID en el HTML antes de cargar este script.".

Definition initializePlaylist (fuel : nat) (g : Globals) (net : Network)
  : M unit :=
  match CONFIG g with
  | None => showError g msg_no_config
  | Some config =>
      if negb (truthy_opt (YOUTUBE_API_KEY config))
         || match YOUTUBE_API_KEY config with
            | Some k => eqb k (lit "TU_API_KEY_AQUI")
            | None => false
            end
      then showError g msg_no_key
      else if negb (truthy_opt (YOUTUBE_PLAYLIST_ID g))
      then showError g msg_no_playlist
      else
        showLoading ;;;
        try_catch
          (videos <- fetchPlaylistVideos fuel g net ;;
           renderVideos videos)
          (fun error =>
             showError g (lit "Error al cargar los vídeos de YouTube. "
                          ++ message error))
  end.

End Locale.

(* ================================================================== *)
(** * Vocabulary of the specification *)
(* ================================================================== *)

Unset Implicit Arguments.

(** ** Durations and white space *)

(** A string contains [PT] when it splits around it. *)
Definition has_PT (s : jsstring) : Prop :=
  exists pre post, s = pre ++ lit "PT" ++ post.

(** A number of the encoding: one digit or more. *)
Definition is_number (ds : jsstring) : bool :=
  truthy ds && forallb is_digit ds.

(** *** The encodings of the specification *)

(** One component of an encoding: its digits and its unit letter, or
    nothing. *)
Definition component (unit : char) (o : option jsstring) : jsstring :=
  match o with Some ds => ds ++ [unit] | None => [] end.

(** The compact encoding with optional hours, minutes and seconds. *)
Definition encoding (h m s : option jsstring) : jsstring :=
  lit "PT" ++ component 72%N h ++ component 77%N m ++ component 83%N s.

Definition well_formed (o : option jsstring) : Prop :=
  match o with Some ds => is_number ds = true | None => True end.

(** Zero-padding to two digits, written out. *)
Definition two_digits (ds : jsstring) : jsstring :=
  match ds with
  | [] => [48; 48]%N
  | [d] => [48%N; d]
  | _ => ds
  end.

Definition digits_or_empty (o : option jsstring) : jsstring :=
  match o with Some ds => ds | None => [] end.

(** A string with no white space at either end. *)
Definition bare (s : jsstring) : Prop :=
  match s with
  | [] => True
  | c :: _ => is_space c = false /\ is_space (last s c) = false
  end.

(** ** Listings *)

Section Listing.

Variable g : Globals.
Variable net : Network.
Variable config : Config.

(** The provider's answer to the listing request made with cursor
    [tok] after the requests [log]. *)
Definition page_response (log : list jsstring) (tok : jsstring)
  : Response Page.t :=
  playlistItems net log (playlistUrl (YOUTUBE_PLAYLIST_ID g) config tok).

(** The requests made once the listing request with cursor [tok] has
    followed the requests [log]. *)
Definition listing_requests (log : list jsstring) (tok : jsstring)
  : list jsstring :=
  log ++ [playlistUrl (YOUTUBE_PLAYLIST_ID g) config tok].

(** The address of the one detail request for [allVideos]. *)
Definition details_request (allVideos : list Item.t) : jsstring :=
  videosUrl config
    (join (lit ",")
       (map (fun item => Item.videoId (Item.contentDetails item)) allVideos)).

(** The provider's answer to the detail request for [allVideos] made
    after the requests [log]. *)
Definition details_response (log : list jsstring) (allVideos : list Item.t)
  : Response Details.t :=
  videos net log (details_request allVideos).

(** [served log tok batches log' tok']: asked with cursor [tok] after
    the requests [log], the provider answers one successful page per
    element of [batches], each carrying a cursor to the next; [log']
    and [tok'] are the requests made and the cursor held after them. *)
Inductive served
  : list jsstring -> jsstring -> list (list Item.t)
    -> list jsstring -> jsstring -> Prop :=
| served_none log tok : served log tok [] log tok
| served_page log tok next batches log' tok' :
    ok (page_response log tok) = true ->
    Page.nextPageToken (json (page_response log tok)) = Some next ->
    truthy next = true ->
    served (listing_requests log tok) next batches log' tok' ->
    served log tok
           (Page.items (json (page_response log tok)) :: batches)
           log' tok'.

(** The pages of a complete listing: the pages that carried a cursor,
    then the page answered to [tok] after [log], which carries none. *)
Definition all_pages (batches : list (list Item.t))
    (log : list jsstring) (tok : jsstring) : list (list Item.t) :=
  batches ++ [Page.items (json (page_response log tok))].

End Listing.

(** ** Preconditions of the orchestration *)

(** One of the three preconditions fails: no configuration object, a
    credential that is absent, empty or the placeholder, or no playlist
    identifier. *)
Definition unconfigured (g : Globals) : Prop :=
  CONFIG g = None
  \/ (exists config,
        CONFIG g = Some config
        /\ (truthy_opt (YOUTUBE_API_KEY config) = false
            \/ YOUTUBE_API_KEY config = Some (lit "TU_API_KEY_AQUI")))
  \/ truthy_opt (YOUTUBE_PLAYLIST_ID g) = false.

(** ** The summary label *)

(** The count, the singular word for one video and the plural word
    otherwise. *)
Definition summary (n : nat) : jsstring :=
  of_nat n
  ++ (if n =? 1 then lit " vídeo" else lit " vídeos")
  ++ lit " en esta lista de reproducción.".

(** ** Sample data *)

Module Sample.

Definition item (videoId title : string) : Item.t :=
  {| Item.contentDetails := {| Item.videoId := lit videoId |};
     Item.snippet :=
       {| Item.title := lit title;
          Item.description := lit "  A long walk through the keep";
          Item.thumbnails :=
            {| Item.high := Some {| Item.url := Some (lit "https://i.ytimg.com/hq.jpg") |};
               Item.medium := None |};
          Item.publishedAt := lit "2024-05-01T10:00:00Z" |} |}.

Definition item_a : Item.t := item "a1" "First".
Definition item_b : Item.t := item "b2" "Second".
Definition item_c : Item.t := item "c3" "Third".

Definition detail (id duration viewCount : string) : Video.t :=
  {| Video.id := lit id;
     Video.contentDetails := Some {| Video.duration := Some (lit duration) |};
     Video.statistics := Some {| Video.viewCount := Some (lit viewCount) |} |}.

Definition config : Config := {| YOUTUBE_API_KEY := Some (lit "KEY") |}.

Definition globals : Globals :=
  {| CONFIG := Some config; YOUTUBE_PLAYLIST_ID := Some (lit "PL1") |}.

(** The globals of a page that loads [js/config.js] as it is in the
    repository. *)
Definition globals_placeholder : Globals :=
  {| CONFIG := Some config_js; YOUTUBE_PLAYLIST_ID := Some (lit "PL1") |}.

Definition world : World :=
  {| requests := [];
     console := [];
     videos_grid := Some [];
     videos_note := Some [] |}.

Definition success {B : Type} (body : B) : Response B :=
  {| ok := true; status := 200; statusText := lit "OK"; json := body |}.

Definition failure {B : Type} (code : nat) (text : string) (body : B)
  : Response B :=
  {| ok := false; status := code; statusText := lit text; json := body |}.

Definition no_page : Page.t :=
  {| Page.items := []; Page.nextPageToken := None |}.

Definition no_details : Details.t := {| Details.items := [] |}.

Definition first_url : jsstring :=
  playlistUrl (YOUTUBE_PLAYLIST_ID globals) config [].

Definition second_url : jsstring :=
  playlistUrl (YOUTUBE_PLAYLIST_ID globals) config (lit "T2").

(** A listing of three records on two pages; [second] is the answer to
    the request for the second page. *)
Definition listing (second : Response Page.t)
  : list jsstring -> jsstring -> Response Page.t :=
  fun _ address =>
    if eqb address first_url
    then success {| Page.items := [item_a; item_b];
                    Page.nextPageToken := Some (lit "T2") |}
    else if eqb address second_url then second
    else failure 404 "Not Found" no_page.

Definition second_page : Response Page.t :=
  success {| Page.items := [item_c]; Page.nextPageToken := None |}.

(** Details for the first and the third record, none for the second. *)
Definition some_details : Details.t :=
  {| Details.items := [detail "c3" "PT2H15M33S" "1200";
                       detail "a1" "PT15M33S" "7"] |}.

Definition net : Network :=
  {| playlistItems := listing second_page;
     videos := fun _ _ => success some_details |}.

(** The same provider, refusing the second page. *)
Definition net_refusing_page : Network :=
  {| playlistItems := listing (failure 403 "Forbidden" no_page);
     videos := fun _ _ => success some_details |}.

(** The same provider, refusing the detail request. *)
Definition net_refusing_details : Network :=
  {| playlistItems := listing second_page;
     videos := fun _ _ => failure 500 "Internal Server Error" no_details |}.

(** A listing of three records on one page, with details for all. *)
Definition net_single_page : Network :=
  {| playlistItems := fun _ _ =>
       success {| Page.items := [item_a; item_b; item_c];
                  Page.nextPageToken := None |};
     videos := fun _ _ =>
       success {| Details.items := [detail "a1" "PT15M33S" "7";
                                    detail "b2" "PT33S" "0";
                                    detail "c3" "PT2H15M33S" "1200"] |} |}.

(** The first page of a two-page listing and the requests made once
    it has been fetched. *)
Definition first_batch (n : Network) : list Item.t :=
  Page.items (json (page_response globals n config [] [])).

Definition first_log : list jsstring :=
  listing_requests globals config [] [].

(** A listing of one record per page whose last page is the one
    requested after [n] others. *)
Definition long_listing (n : nat) : Network :=
  {| playlistItems := fun log _ =>
       success {| Page.items := [item_a];
                  Page.nextPageToken :=
                    if length log <? n then Some (lit "T") else None |};
     videos := fun _ _ => success no_details |}.

(** The detail record of a live broadcast, whose duration the provider
    gives as zero days. *)
Definition live_details : Details.t :=
  {| Details.items := [detail "a1" "P0D" "15"] |}.

(** The enriched videos of a three-record listing with full details,
    and of a listing that holds a live broadcast. *)
Definition three_videos : list Enriched.t :=
  videosWithDetails [item_a; item_b; item_c]
    {| Details.items := [detail "a1" "PT15M33S" "7";
                         detail "b2" "PT33S" "0";
                         detail "c3" "PT2H15M33S" "1200"] |}.

Definition live_videos : list Enriched.t :=
  videosWithDetails [item_a] live_details.

(** The engine's locale functions, fixed to the identity where a
    concrete run needs them. *)
Definition same (s : jsstring) : jsstring := s.

Definition engine_message (e : exn) : jsstring :=
  match e with
  | Error m => m
  | TypeError p => lit "Cannot read properties of null"
  | ReferenceError n => n ++ lit " is not defined"
  end.

End Sample.

(** ** Further vocabulary *)

(** The provider's encoding of a duration of a day or more: the days,
    then nothing or the time components. *)
Definition day_encoding (d : jsstring)
    (time : option (option jsstring * option jsstring * option jsstring))
  : jsstring :=
  lit "P" ++ d ++ lit "D"
  ++ match time with
     | None => []
     | Some (h, m, s) =>
         lit "T" ++ component 72%N h ++ component 77%N m ++ component 83%N s
     end.

(** The markup [showLoading] writes. *)
Definition loading_html : jsstring :=
  lit "
        <div class=" ++ dq ++ lit "loading-container" ++ dq ++ lit ">
            <div class=" ++ dq ++ lit "loading-spinner" ++ dq ++ lit "></div>
            <p>Cargando vídeos de la lista de reproducción...</p>
        </div>
    ".

(** The label [fetchPlaylistVideos] gives the console, and the words
    [initializePlaylist] puts before the message of a caught error. *)
Definition fetch_error_label : jsstring :=
  lit "Error fetching playlist videos:".

Definition load_error_prefix : jsstring :=
  lit "Error al cargar los vídeos de YouTube. ".

(** The three preconditions of [initializePlaylist] hold: [config] is the
    configuration object, its credential is a non-empty string other than
    the placeholder, and a non-empty playlist identifier is set. *)
Definition configured (g : Globals) (config : Config) : Prop :=
  CONFIG g = Some config
  /\ truthy_opt (YOUTUBE_API_KEY config) = true
  /\ YOUTUBE_API_KEY config <> Some (lit "TU_API_KEY_AQUI")
  /\ truthy_opt (YOUTUBE_PLAYLIST_ID g) = true.

(** The provider hands out a cursor with every page, whatever is asked. *)
Definition never_ending (net : Network) : Prop :=
  forall log address,
    ok (playlistItems net log address) = true
    /\ truthy_opt (Page.nextPageToken (json (playlistItems net log address)))
       = true.

(** The identifiers of a membership sequence. *)
Definition videoIds (allVideos : list Item.t) : list jsstring :=
  map (fun item => Item.videoId (Item.contentDetails item)) allVideos.

(** A detail record is about one of the records of the playlist. *)
Definition about (allVideos : list Item.t) (v : Video.t) : bool :=
  existsb (fun videoId => eqb (Video.id v) videoId) (videoIds allVideos).

Module Scenario.

Definition world_without_grid : World :=
  {| requests := [];
     console := [];
     videos_grid := None;
     videos_note := Some [] |}.

Definition globals_without_config : Globals :=
  {| CONFIG := None; YOUTUBE_PLAYLIST_ID := Some (lit "PL1") |}.

(** A provider whose every page carries a cursor. *)
Definition endless : Network :=
  {| playlistItems := fun _ _ =>
       Sample.success {| Page.items := [Sample.item_a];
                         Page.nextPageToken := Some (lit "T") |};
     videos := fun _ _ => Sample.success Sample.no_details |}.

(** A playlist without records. *)
Definition empty_playlist : Network :=
  {| playlistItems := fun _ _ => Sample.success Sample.no_page;
     videos := fun _ _ => Sample.success Sample.no_details |}.

(** Details in another order than the playlist, with a record about a
    video that is not in it. *)
Definition shuffled_details : list Video.t :=
  [Sample.detail "zz" "PT1S" "1";
   Sample.detail "c3" "PT2H15M33S" "1200";
   Sample.detail "a1" "PT15M33S" "7"].

End Scenario.

(* ================================================================== *)
(** * Properties *)
(* ================================================================== *)

(** ** Strings *)

Lemma eqb_eq (s t : jsstring) : eqb s t = true <-> s = t.
Proof.
  revert t. induction s as [|a s IH]; intros [|b t]; simpl;
    try (split; [discriminate | congruence]); try tauto.
  unfold char_eqb. rewrite andb_true_iff, N.eqb_eq, IH.
  split; [intros [-> ->]; reflexivity | intros E; inversion E; auto].
Qed.

Lemma eqb_refl (s : jsstring) : eqb s s = true.
Proof. apply eqb_eq. reflexivity. Qed.

Example lit_accent : lit "vídeo" = [118; 237; 100; 101; 111]%N.
Proof. reflexivity. Qed.

Example lit_warning_sign : lit "⚠️" = [9888; 65039]%N.
Proof. reflexivity. Qed.

Example lit_beyond_basic_plane : lit "😀" = [55357; 56832]%N.
Proof. reflexivity. Qed.

Lemma lit_PT : lit "PT" = [80; 84]%N.
Proof. reflexivity. Qed.

Lemma lit_colon : lit ":" = [58]%N.
Proof. reflexivity. Qed.

Lemma lit_zero : lit "0" = [48]%N.
Proof. reflexivity. Qed.

Lemma regex_match_none (s : jsstring) :
  regex_match s = None -> ~ has_PT s.
Proof.
  induction s as [|c s IH]; intros H [pre [post E]].
  - destruct pre; discriminate E.
  - cbn [regex_match] in H.
    destruct (prefixb (lit "PT") (c :: s)) eqn:P; [discriminate|].
    destruct pre as [|p pre].
    + rewrite lit_PT in E, P. simpl in E. injection E as -> E. subst s.
      simpl in P. discriminate P.
    + simpl in E. injection E as _ E. apply (IH H). exists pre, post. exact E.
Qed.

Lemma regex_match_some (s : jsstring) :
  has_PT s -> exists caps, regex_match s = Some caps.
Proof.
  intros [pre [post ->]]. induction pre as [|p pre IH].
  - rewrite lit_PT. simpl. eauto.
  - cbn [regex_match app].
    destruct (prefixb (lit "PT") (p :: pre ++ lit "PT" ++ post)); eauto.
Qed.

Lemma regex_match_at_PT (rest : jsstring) :
  regex_match (lit "PT" ++ rest) = Some (groups rest).
Proof. rewrite lit_PT. reflexivity. Qed.

Lemma formatDuration_total_on_match (s : jsstring) caps :
  regex_match s = Some caps -> exists r, formatDuration s = Returned r.
Proof.
  intros H. unfold formatDuration. rewrite H. destruct caps as [[m1 m2] m3].
  destruct (truthy _); eauto.
Qed.

(** *** Reading one component *)

Lemma span_digits_run (ds : jsstring) (c : char) (rest : jsstring) :
  forallb is_digit ds = true -> is_digit c = false ->
  span_digits (ds ++ c :: rest) = (ds, c :: rest).
Proof.
  intros Hds Hc. induction ds as [|d ds IH]; simpl.
  - rewrite Hc. reflexivity.
  - simpl in Hds. apply andb_true_iff in Hds as [Hd Hds].
    rewrite Hd, (IH Hds). reflexivity.
Qed.

Lemma group_present (u : char) (ds rest : jsstring) :
  is_number ds = true -> is_digit u = false ->
  group u (ds ++ u :: rest) = (Some (ds ++ [u]), rest).
Proof.
  intros Hn Hu. apply andb_true_iff in Hn as [Hne Hds].
  unfold group. rewrite (span_digits_run _ _ _ Hds Hu).
  destruct ds as [|d ds]; [discriminate|].
  unfold char_eqb. rewrite N.eqb_refl. reflexivity.
Qed.

Lemma group_other_unit (u c : char) (ds rest : jsstring) :
  forallb is_digit ds = true -> is_digit c = false -> c <> u ->
  group u (ds ++ c :: rest) = (None, ds ++ c :: rest).
Proof.
  intros Hds Hc Hne. unfold group. rewrite (span_digits_run _ _ _ Hds Hc).
  destruct ds as [|d ds]; [reflexivity|].
  unfold char_eqb. destruct (N.eqb_spec c u); [contradiction | reflexivity].
Qed.

Lemma group_end (u : char) : group u [] = (None, []).
Proof. reflexivity. Qed.

Lemma remove_first_unit (u : char) (ds : jsstring) :
  forallb is_digit ds = true -> is_digit u = false ->
  remove_first u (ds ++ [u]) = ds.
Proof.
  intros Hds Hu. induction ds as [|d ds IH]; simpl.
  - unfold char_eqb. rewrite N.eqb_refl. reflexivity.
  - simpl in Hds. apply andb_true_iff in Hds as [Hd Hds].
    unfold char_eqb. destruct (N.eqb_spec d u) as [->|_]; [congruence|].
    rewrite (IH Hds). reflexivity.
Qed.

Lemma padStart_two_digits (ds : jsstring) :
  padStart 2 48%N ds = two_digits ds.
Proof. destruct ds as [|a [|b ds]]; reflexivity. Qed.

Lemma groups_encoding (h m s : option jsstring) :
  well_formed h -> well_formed m -> well_formed s ->
  groups (component 72%N h ++ component 77%N m ++ component 83%N s)
  = (option_map (fun ds : jsstring => ds ++ [72%N]) h,
     option_map (fun ds : jsstring => ds ++ [77%N]) m,
     option_map (fun ds : jsstring => ds ++ [83%N]) s).
Proof.
  intros Hh Hm Hs. unfold groups.
  assert (Gs : group 83%N (component 83%N s)
               = (option_map (fun ds : jsstring => ds ++ [83%N]) s, [])).
  { destruct s as [ds|]; simpl in *; [|reflexivity].
    change (ds ++ [83%N]) with (ds ++ 83%N :: []) at 1.
    apply group_present; [assumption | reflexivity]. }
  assert (Gm : group 77%N (component 77%N m ++ component 83%N s)
               = (option_map (fun ds : jsstring => ds ++ [77%N]) m, component 83%N s)).
  { destruct m as [ds|]; simpl in *.
    - rewrite <- app_assoc. simpl. apply group_present; [assumption | reflexivity].
    - destruct s as [ds|]; simpl in *; [|reflexivity].
      apply andb_true_iff in Hs as [_ Hs].
      apply group_other_unit; [assumption | reflexivity | discriminate]. }
  assert (Gh : group 72%N (component 72%N h ++ component 77%N m ++ component 83%N s)
               = (option_map (fun ds : jsstring => ds ++ [72%N]) h,
                  component 77%N m ++ component 83%N s)).
  { destruct h as [ds|]; simpl in *.
    - rewrite <- app_assoc. simpl. apply group_present; [assumption | reflexivity].
    - destruct m as [ds|]; simpl in *.
      + apply andb_true_iff in Hm as [_ Hm]. rewrite <- app_assoc. simpl.
        apply group_other_unit; [assumption | reflexivity | discriminate].
      + destruct s as [ds|]; simpl in *; [|reflexivity].
        apply andb_true_iff in Hs as [_ Hs].
        apply group_other_unit; [assumption | reflexivity | discriminate]. }
  rewrite Gh, Gm, Gs. reflexivity.
Qed.

Lemma capture_digits (u : char) (o : option jsstring) :
  well_formed o -> is_digit u = false ->
  remove_first u (or_default (option_map (fun ds : jsstring => ds ++ [u]) o) [])
  = digits_or_empty o.
Proof.
  intros Ho Hu. destruct o as [ds|]; simpl in *; [|reflexivity].
  apply andb_true_iff in Ho as [Hne Hds].
  destruct ds as [|d ds]; [discriminate|]. simpl app. cbv iota beta.
  change (truthy (d :: ds ++ [u])) with true. cbv iota.
  apply (remove_first_unit u (d :: ds)); assumption.
Qed.

Lemma prefixb_split (p s : jsstring) :
  prefixb p s = true -> exists rest, s = p ++ rest.
Proof.
  revert s. induction p as [|a p IH]; intros s H.
  - exists s. reflexivity.
  - destruct s as [|b s]; [discriminate|]. simpl in H.
    apply andb_true_iff in H as [Hab H]. apply N.eqb_eq in Hab. subst b.
    destruct (IH s H) as [rest ->]. exists rest. reflexivity.
Qed.

Lemma regex_match_has_PT (s : jsstring) caps :
  regex_match s = Some caps -> has_PT s.
Proof.
  induction s as [|c s IH]; intros H; [discriminate|].
  cbn [regex_match] in H.
  destruct (prefixb (lit "PT") (c :: s)) eqn:P.
  - destruct (prefixb_split _ _ P) as [rest E]. exists [], rest. exact E.
  - destruct (IH H) as [pre [post ->]]. exists (c :: pre), post. reflexivity.
Qed.

(** ** [trim] *)

Lemma trimStart_split (s : jsstring) :
  exists lead, s = lead ++ trimStart s /\ forallb is_space lead = true.
Proof.
  induction s as [|c s [lead [E H]]].
  - exists []. split; reflexivity.
  - simpl. destruct (is_space c) eqn:Hc.
    + exists (c :: lead). simpl. rewrite Hc, H. split; [f_equal; exact E | reflexivity].
    + exists []. split; reflexivity.
Qed.

Lemma trimStart_head (s : jsstring) :
  match trimStart s with [] => True | c :: _ => is_space c = false end.
Proof.
  induction s as [|c s IH]; simpl; [exact I|].
  destruct (is_space c) eqn:Hc; [exact IH | exact Hc].
Qed.

Lemma forallb_rev {A} (f : A -> bool) (l : list A) :
  forallb f (rev l) = forallb f l.
Proof.
  induction l as [|a l IH]; [reflexivity|]. simpl.
  rewrite forallb_app, IH. simpl. rewrite andb_true_r. apply andb_comm.
Qed.

Lemma last_rev_cons {A} (l : list A) (a d : A) : last (rev (a :: l)) d = a.
Proof. simpl. apply last_last. Qed.

Lemma trim_split (s : jsstring) :
  exists lead trail,
    s = lead ++ trim s ++ trail
    /\ forallb is_space lead = true
    /\ forallb is_space trail = true
    /\ bare (trim s).
Proof.
  destruct (trimStart_split s) as [lead [E Hlead]].
  destruct (trimStart_split (rev (trimStart s))) as [tr [E' Htr]].
  exists lead, (rev tr). unfold trim, trimEnd.
  assert (Et : trimStart s = rev (trimStart (rev (trimStart s))) ++ rev tr).
  { rewrite <- rev_app_distr, <- E', rev_involutive. reflexivity. }
  repeat split.
  - rewrite <- Et. exact E.
  - exact Hlead.
  - rewrite forallb_rev. exact Htr.
  - pose proof (trimStart_head s) as Hh.
    pose proof (trimStart_head (rev (trimStart s))) as Hl.
    destruct (trimStart (rev (trimStart s))) as [|z zs] eqn:Ez; [exact I|].
    unfold bare. destruct (rev (z :: zs)) as [|c cs] eqn:Ec.
    + exact I.
    + split.
      * rewrite Et in Hh. exact Hh.
      * rewrite <- Ec. rewrite last_rev_cons. exact Hl.
Qed.

(* ================================================================== *)
(** ** The pagination loop *)
(* ================================================================== *)

Lemma set_requests_requests w l : requests (set_requests w l) = l.
Proof. reflexivity. Qed.

Lemma set_requests_twice w l l' :
  set_requests (set_requests w l) l' = set_requests w l'.
Proof. reflexivity. Qed.

Lemma set_requests_same w : set_requests w (requests w) = w.
Proof. destruct w; reflexivity. Qed.

Section Pagination.

Variable g : Globals.
Variable net : Network.
Variable config : Config.
Hypothesis config_loaded : CONFIG g = Some config.

Local Abbreviation page := (page_response g net config).
Local Abbreviation after := (listing_requests g config).
Local Abbreviation details := (details_response net config).
Local Abbreviation pages := (all_pages g net config).

Lemma served_requests log tok batches log' tok' :
  served g net config log tok batches log' tok' ->
  length log' = length log + length batches.
Proof.
  induction 1 as [|log tok next batches log' tok' _ _ _ _ IH]; simpl.
  - lia.
  - rewrite IH. unfold listing_requests. rewrite length_app. simpl. lia.
Qed.

(** One turn of the loop. *)
Lemma fetch_pages_turn fuel allVideos tok w :
  fetch_pages (S fuel) g net allVideos tok w =
  let response := page (requests w) tok in
  let w' := set_requests w (after (requests w) tok) in
  if negb (ok response) then (Thrown (playlist_error response), w')
  else if truthy (or_default (Page.nextPageToken (json response)) [])
  then fetch_pages fuel g net (allVideos ++ Page.items (json response))
         (or_default (Page.nextPageToken (json response)) []) w'
  else (Returned (allVideos ++ Page.items (json response)), w').
Proof.
  cbn [fetch_pages]. unfold bind at 1, lift, read_CONFIG.
  rewrite config_loaded. unfold bind, fetch, page_response, listing_requests.
  cbv zeta.
  destruct (negb (ok _)); [reflexivity|].
  destruct (truthy _); reflexivity.
Qed.

(** The loop follows the pages served, whatever it had accumulated. *)
Lemma fetch_pages_served log tok batches log' tok' :
  served g net config log tok batches log' tok' ->
  forall fuel allVideos w,
    requests w = log ->
    fetch_pages (length batches + fuel) g net allVideos tok w
    = fetch_pages fuel g net (allVideos ++ concat batches) tok'
        (set_requests w log').
Proof.
  induction 1 as [log tok|log tok next batches log' tok' Hok Hnext Ht _ IH];
    intros fuel allVideos w Hw.
  - simpl. rewrite app_nil_r, <- Hw, set_requests_same. reflexivity.
  - cbn [length Nat.add]. rewrite fetch_pages_turn. cbv zeta.
    rewrite Hw, Hok, Hnext. cbn [negb or_default]. rewrite Ht. cbv iota.
    rewrite Ht.
    rewrite IH by reflexivity.
    rewrite set_requests_twice. cbn [concat]. rewrite <- app_assoc. reflexivity.
Qed.

Lemma fetch_pages_last fuel allVideos tok w :
  ok (page (requests w) tok) = true ->
  truthy_opt (Page.nextPageToken (json (page (requests w) tok))) = false ->
  fetch_pages (S fuel) g net allVideos tok w
  = (Returned (allVideos ++ Page.items (json (page (requests w) tok))),
     set_requests w (after (requests w) tok)).
Proof.
  intros Hok Hnone. rewrite fetch_pages_turn. cbv zeta. rewrite Hok.
  cbn [negb].
  destruct (Page.nextPageToken _) as [t|]; simpl in *.
  - rewrite Hnone. reflexivity.
  - reflexivity.
Qed.

Lemma fetch_pages_refused fuel allVideos tok w :
  ok (page (requests w) tok) = false ->
  fetch_pages (S fuel) g net allVideos tok w
  = (Thrown (playlist_error (page (requests w) tok)),
     set_requests w (after (requests w) tok)).
Proof.
  intros Hok. rewrite fetch_pages_turn. cbv zeta. rewrite Hok. reflexivity.
Qed.

Lemma fetch_pages_complete batches log tok fuel w :
  served g net config (requests w) [] batches log tok ->
  ok (page log tok) = true ->
  truthy_opt (Page.nextPageToken (json (page log tok))) = false ->
  length batches < fuel ->
  fetch_pages fuel g net [] [] w
  = (Returned (concat (pages batches log tok)),
     set_requests w (after log tok)).
Proof.
  intros Hs Hok Hnone Hfuel.
  replace fuel with (length batches + S (fuel - S (length batches))) by lia.
  rewrite (fetch_pages_served _ _ _ _ _ Hs) by reflexivity.
  rewrite fetch_pages_last; rewrite set_requests_requests; try assumption.
  rewrite set_requests_twice. unfold all_pages.
  rewrite concat_app. simpl. rewrite app_nil_r. reflexivity.
Qed.

Lemma fetch_pages_failing batches log tok fuel w :
  served g net config (requests w) [] batches log tok ->
  ok (page log tok) = false ->
  length batches < fuel ->
  fetch_pages fuel g net [] [] w
  = (Thrown (playlist_error (page log tok)),
     set_requests w (after log tok)).
Proof.
  intros Hs Hok Hfuel.
  replace fuel with (length batches + S (fuel - S (length batches))) by lia.
  rewrite (fetch_pages_served _ _ _ _ _ Hs) by reflexivity.
  rewrite fetch_pages_refused; rewrite set_requests_requests; try assumption.
  rewrite set_requests_twice. reflexivity.
Qed.

(** *** The whole of [fetchPlaylistVideos] *)

Lemma fetchPlaylistVideos_after_pages fuel w allVideos w' :
  fetch_pages fuel g net [] [] w = (Returned allVideos, w') ->
  fetchPlaylistVideos fuel g net w =
  let videosResponse := details (requests w') allVideos in
  let w'' := set_requests w'
               (requests w' ++ [details_request config allVideos]) in
  if ok videosResponse
  then (Returned (videosWithDetails allVideos (json videosResponse)), w'')
  else (Thrown (details_error videosResponse),
        set_console w''
          (console w'' ++ [(lit "Error fetching playlist videos:",
                            details_error videosResponse)])).
Proof.
  intros H. unfold fetchPlaylistVideos, try_catch. unfold bind at 1.
  rewrite H. unfold bind at 1, lift, read_CONFIG. rewrite config_loaded.
  unfold bind at 1, fetch. cbv zeta.
  unfold details_response, details_request.
  destruct (ok _); cbn [negb].
  - unfold ret. reflexivity.
  - unfold throw, bind, console_error. reflexivity.
Qed.

Lemma fetchPlaylistVideos_after_refusal fuel w e w' :
  fetch_pages fuel g net [] [] w = (Thrown e, w') ->
  fetchPlaylistVideos fuel g net w =
  (Thrown e,
   set_console w' (console w' ++ [(lit "Error fetching playlist videos:", e)])).
Proof.
  intros H. unfold fetchPlaylistVideos, try_catch. unfold bind at 1.
  rewrite H. unfold throw, bind, console_error. reflexivity.
Qed.

Lemma length_concat_sum {A} (l : list (list A)) :
  length (concat l) = list_sum (map (@length A) l).
Proof.
  induction l as [|x l IH]; [reflexivity|].
  simpl. rewrite length_app, IH. reflexivity.
Qed.

(** C1.  When the provider answers the first request and every request
    made with the cursor of the page before it with a successful page,
    and the last of these pages carries no cursor (none, or an empty
    one), the loop of [fetchPlaylistVideos], given fuel for one turn per
    page, returns the concatenation of the pages in the order they were
    fetched: as many records as the pages hold together, none dropped or
    repeated.  It makes one request per page and stops after the page
    without cursor, however many pages came before it. *)
Theorem fetch_pages_returns_every_page batches log tok fuel w :
  served g net config (requests w) [] batches log tok ->
  ok (page log tok) = true ->
  truthy_opt (Page.nextPageToken (json (page log tok))) = false ->
  length batches < fuel ->
  fst (fetch_pages fuel g net [] [] w)
  = Returned (concat (pages batches log tok))
  /\ length (concat (pages batches log tok))
     = list_sum (map (@length Item.t) (pages batches log tok))
  /\ requests (snd (fetch_pages fuel g net [] [] w)) = after log tok
  /\ length (requests (snd (fetch_pages fuel g net [] [] w)))
     = length (requests w) + length (pages batches log tok).
Proof.
  intros Hs Hok Hnone Hfuel.
  rewrite (fetch_pages_complete _ _ _ _ _ Hs Hok Hnone Hfuel).
  cbn [fst snd]. rewrite set_requests_requests.
  repeat split.
  - apply length_concat_sum.
  - unfold listing_requests, all_pages. rewrite !length_app.
    rewrite (served_requests _ _ _ _ _ Hs). simpl. lia.
Qed.

(** C4.  After any number of successful pages, a listing response that
    is not a success makes [fetchPlaylistVideos] throw an error whose
    message carries the status of that response; and after a complete
    listing, a detail response that is not a success makes it throw an
    error whose message carries the status of that response.  In both
    cases nothing is returned: the records accumulated so far are not
    handed to the caller. *)
Theorem fetchPlaylistVideos_throws_on_refusal batches log tok fuel w :
  served g net config (requests w) [] batches log tok ->
  length batches < fuel ->
  (ok (page log tok) = false ->
   fst (fetchPlaylistVideos fuel g net w)
   = Thrown (Error (lit "Error al obtener la playlist: "
                    ++ of_nat (status (page log tok)) ++ lit " "
                    ++ statusText (page log tok))))
  /\ (ok (page log tok) = true ->
      truthy_opt (Page.nextPageToken (json (page log tok))) = false ->
      ok (details (after log tok) (concat (pages batches log tok))) = false ->
      fst (fetchPlaylistVideos fuel g net w)
      = Thrown (Error (lit "Error al obtener detalles de vídeos: "
                       ++ of_nat (status (details (after log tok)
                                            (concat (pages batches log tok)))))))
  /\ ((ok (page log tok) = false
       \/ (ok (page log tok) = true
           /\ truthy_opt (Page.nextPageToken (json (page log tok))) = false
           /\ ok (details (after log tok) (concat (pages batches log tok)))
              = false)) ->
      forall videos,
        fst (fetchPlaylistVideos fuel g net w) <> Returned videos).
Proof.
  intros Hs Hfuel.
  assert (A : ok (page log tok) = false ->
              fst (fetchPlaylistVideos fuel g net w)
              = Thrown (playlist_error (page log tok))).
  { intros Hok.
    rewrite (fetchPlaylistVideos_after_refusal _ _ _ _
               (fetch_pages_failing _ _ _ _ _ Hs Hok Hfuel)).
    reflexivity. }
  assert (B : ok (page log tok) = true ->
              truthy_opt (Page.nextPageToken (json (page log tok))) = false ->
              ok (details (after log tok) (concat (pages batches log tok)))
              = false ->
              fst (fetchPlaylistVideos fuel g net w)
              = Thrown (details_error
                          (details (after log tok)
                             (concat (pages batches log tok))))).
  { intros Hok Hnone Hd.
    rewrite (fetchPlaylistVideos_after_pages _ _ _ _
               (fetch_pages_complete _ _ _ _ _ Hs Hok Hnone Hfuel)).
    cbv zeta. rewrite set_requests_requests, Hd. reflexivity. }
  split; [exact A | split; [exact B |]].
  intros [Hok | [Hok [Hnone Hd]]] videos.
  - rewrite (A Hok). discriminate.
  - rewrite (B Hok Hnone Hd). discriminate.
Qed.

End Pagination.

(** *** Concrete runs of the loop *)

Lemma sample_first_page_served (n : Network) :
  ok (page_response Sample.globals n Sample.config [] []) = true ->
  Page.nextPageToken (json (page_response Sample.globals n Sample.config [] []))
  = Some (lit "T2") ->
  served Sample.globals n Sample.config [] []
         [Sample.first_batch n] Sample.first_log (lit "T2").
Proof.
  intros Hok Hnext. unfold Sample.first_batch, Sample.first_log.
  apply served_page with (next := lit "T2").
  - exact Hok.
  - exact Hnext.
  - reflexivity.
  - apply served_none.
Defined.

Lemma fetch_pages_returns_every_page_witness :
  fst (fetch_pages 2 Sample.globals Sample.net [] [] Sample.world)
  = Returned (concat (all_pages Sample.globals Sample.net Sample.config
                        [Sample.first_batch Sample.net] Sample.first_log
                        (lit "T2")))
  /\ length (concat (all_pages Sample.globals Sample.net Sample.config
                       [Sample.first_batch Sample.net] Sample.first_log
                       (lit "T2")))
     = list_sum (map (@length Item.t)
                   (all_pages Sample.globals Sample.net Sample.config
                      [Sample.first_batch Sample.net] Sample.first_log
                      (lit "T2")))
  /\ requests (snd (fetch_pages 2 Sample.globals Sample.net [] [] Sample.world))
     = listing_requests Sample.globals Sample.config Sample.first_log (lit "T2")
  /\ length (requests (snd (fetch_pages 2 Sample.globals Sample.net [] []
                              Sample.world)))
     = length (requests Sample.world)
       + length (all_pages Sample.globals Sample.net Sample.config
                   [Sample.first_batch Sample.net] Sample.first_log (lit "T2")).
Proof.
  apply (fetch_pages_returns_every_page Sample.globals Sample.net Sample.config
           eq_refl [Sample.first_batch Sample.net] Sample.first_log
           (lit "T2") 2 Sample.world).
  - apply sample_first_page_served; vm_compute; reflexivity.
  - vm_compute. reflexivity.
  - vm_compute. reflexivity.
  - simpl. lia.
Defined.

Example fetch_pages_two_pages :
  fst (fetch_pages 2 Sample.globals Sample.net [] [] Sample.world)
  = Returned [Sample.item_a; Sample.item_b; Sample.item_c].
Proof. vm_compute. reflexivity. Qed.

Example fetch_pages_two_requests :
  requests (snd (fetch_pages 2 Sample.globals Sample.net [] [] Sample.world))
  = [Sample.first_url; Sample.second_url].
Proof. vm_compute. reflexivity. Qed.

Lemma fetchPlaylistVideos_throws_on_refusal_witness :
  fst (fetchPlaylistVideos 2 Sample.globals Sample.net_refusing_page Sample.world)
  = Thrown
      (Error
         (lit "Error al obtener la playlist: "
          ++ of_nat (status (page_response Sample.globals Sample.net_refusing_page
                               Sample.config Sample.first_log (lit "T2")))
          ++ lit " "
          ++ statusText (page_response Sample.globals Sample.net_refusing_page
                           Sample.config Sample.first_log (lit "T2"))))
  /\ fst (fetchPlaylistVideos 2 Sample.globals Sample.net_refusing_details
            Sample.world)
     = Thrown
         (Error
            (lit "Error al obtener detalles de vídeos: "
             ++ of_nat
                  (status
                     (details_response Sample.net_refusing_details Sample.config
                        (listing_requests Sample.globals Sample.config
                           Sample.first_log (lit "T2"))
                        (concat
                           (all_pages Sample.globals Sample.net_refusing_details
                              Sample.config
                              [Sample.first_batch Sample.net_refusing_details]
                              Sample.first_log (lit "T2"))))))).
Proof.
  split.
  - apply (fetchPlaylistVideos_throws_on_refusal Sample.globals
             Sample.net_refusing_page Sample.config eq_refl
             [Sample.first_batch Sample.net_refusing_page] Sample.first_log
             (lit "T2") 2 Sample.world).
    + apply sample_first_page_served; vm_compute; reflexivity.
    + simpl. lia.
    + vm_compute. reflexivity.
  - apply (fetchPlaylistVideos_throws_on_refusal Sample.globals
             Sample.net_refusing_details Sample.config eq_refl
             [Sample.first_batch Sample.net_refusing_details] Sample.first_log
             (lit "T2") 2 Sample.world).
    + apply sample_first_page_served; vm_compute; reflexivity.
    + simpl. lia.
    + vm_compute. reflexivity.
    + vm_compute. reflexivity.
    + vm_compute. reflexivity.
Defined.

Example second_page_refused :
  fetchPlaylistVideos 2 Sample.globals Sample.net_refusing_page Sample.world
  = (Thrown (Error (lit "Error al obtener la playlist: 403 Forbidden")),
     {| requests := [Sample.first_url; Sample.second_url];
        console := [(lit "Error fetching playlist videos:",
                     Error (lit "Error al obtener la playlist: 403 Forbidden"))];
        videos_grid := Some [];
        videos_note := Some [] |}).
Proof. vm_compute. reflexivity. Qed.

Example details_refused :
  fst (fetchPlaylistVideos 2 Sample.globals Sample.net_refusing_details
         Sample.world)
  = Thrown (Error (lit "Error al obtener detalles de vídeos: 500")).
Proof. vm_compute. reflexivity. Qed.

(** The empty cursor ends the loop like the absent one. *)
Example empty_cursor_ends_the_loop (fuel : nat) (items : list Item.t) :
  let n := {| playlistItems := fun _ _ =>
                Sample.success {| Page.items := items;
                                  Page.nextPageToken := Some [] |};
              videos := fun _ _ => Sample.success Sample.no_details |} in
  fst (fetch_pages (S fuel) Sample.globals n [] [] Sample.world)
  = Returned items.
Proof. reflexivity. Qed.

(** A provider that always hands out a cursor keeps the loop turning:
    no amount of fuel makes it return. *)
Example endless_listing (fuel : nat) :
  let n := {| playlistItems := fun _ _ =>
                Sample.success {| Page.items := [Sample.item_a];
                                  Page.nextPageToken := Some (lit "T") |};
              videos := fun _ _ => Sample.success Sample.no_details |} in
  forall allVideos tok w,
    fst (fetch_pages fuel Sample.globals n allVideos tok w) = OutOfFuel.
Proof.
  intros n. induction fuel as [|fuel IH]; intros allVideos tok w.
  - reflexivity.
  - rewrite (fetch_pages_turn Sample.globals n Sample.config eq_refl).
    cbv zeta. unfold n at 1 2 3 4. unfold page_response. cbn [playlistItems Sample.success ok json negb Page.nextPageToken Page.items or_default].
    change (truthy (lit "T")) with true. cbv iota.
    apply IH.
Qed.

(** A listing may have any number of pages: the loop fetches them all. *)
Lemma long_listing_turns (n k : nat) :
  forall allVideos tok w,
    length (requests w) + k = n ->
    fst (fetch_pages (S k) Sample.globals (Sample.long_listing n)
           allVideos tok w)
    = Returned (allVideos ++ repeat Sample.item_a (S k)).
Proof.
  induction k as [|k IH]; intros allVideos tok w Hn;
    rewrite (fetch_pages_turn Sample.globals (Sample.long_listing n)
               Sample.config eq_refl);
    cbv zeta; unfold page_response;
    cbn [Sample.long_listing playlistItems Sample.success ok json negb
         Page.nextPageToken Page.items].
  - destruct (Nat.ltb_spec (length (requests w)) n) as [Hlt|_]; [lia|].
    reflexivity.
  - destruct (Nat.ltb_spec (length (requests w)) n) as [_|Hge]; [|lia].
    cbn [or_default]. change (truthy (lit "T")) with true. cbv iota.
    change (truthy (lit "T")) with true. cbv iota.
    rewrite IH.
    + rewrite <- app_assoc. reflexivity.
    + rewrite set_requests_requests. unfold listing_requests.
      rewrite length_app. simpl. lia.
Qed.

Example long_listing_fetched (n : nat) :
  fst (fetch_pages (S n) Sample.globals (Sample.long_listing n) [] []
         Sample.world)
  = Returned (repeat Sample.item_a (S n)).
Proof. apply (long_listing_turns n n [] [] Sample.world). reflexivity. Qed.

(* ================================================================== *)
(** ** The join *)
(* ================================================================== *)

Lemma find_no_match {A} (f : A -> bool) (l : list A) :
  (forall x, In x l -> f x = false) -> find f l = None.
Proof.
  induction l as [|a l IH]; intros H; [reflexivity|]. simpl.
  rewrite (H a (or_introl eq_refl)). apply IH.
  intros x Hx. apply H. right. exact Hx.
Qed.

Lemma videoDetails_absent videosData item :
  (forall v, In v (Details.items videosData) ->
             Video.id v <> Item.videoId (Item.contentDetails item)) ->
  videoDetails videosData item = None.
Proof.
  intros H. unfold videoDetails. apply find_no_match. intros v Hv.
  destruct (eqb (Video.id v) (Item.videoId (Item.contentDetails item))) eqn:E;
    [|reflexivity].
  apply eqb_eq in E. exfalso. exact (H v Hv E).
Qed.

Lemma videoDetails_found videosData item v :
  videoDetails videosData item = Some v ->
  In v (Details.items videosData)
  /\ Video.id v = Item.videoId (Item.contentDetails item).
Proof.
  unfold videoDetails. intros H. apply find_some in H as [Hin E].
  apply eqb_eq in E. split; assumption.
Qed.

Lemma enrich_without_details videosData item :
  videoDetails videosData item = None ->
  Enriched.duration (enrich videosData item) = lit "PT0S"
  /\ Enriched.viewCount (enrich videosData item) = lit "0".
Proof.
  intros H. unfold enrich. rewrite H. split; reflexivity.
Qed.

(** C2.  The join yields one enriched video per membership record, at the
    position of the record and carrying its identifier, title, description
    and date, whatever the detail response holds: details for none, for
    some or for all of the identifiers. *)
Theorem videosWithDetails_one_per_record
    (allVideos : list Item.t) (videosData : Details.t) :
  length (videosWithDetails allVideos videosData) = length allVideos
  /\ map Enriched.id (videosWithDetails allVideos videosData)
     = map (fun item => Item.videoId (Item.contentDetails item)) allVideos
  /\ map Enriched.title (videosWithDetails allVideos videosData)
     = map (fun item => Item.title (Item.snippet item)) allVideos
  /\ map Enriched.description (videosWithDetails allVideos videosData)
     = map (fun item => Item.description (Item.snippet item)) allVideos
  /\ map Enriched.publishedAt (videosWithDetails allVideos videosData)
     = map (fun item => Item.publishedAt (Item.snippet item)) allVideos.
Proof.
  unfold videosWithDetails. rewrite length_map, !map_map.
  repeat split; apply map_ext; reflexivity.
Qed.

(** C3.  A membership record whose identifier no detail record carries
    still has its enriched video, at its own position in the result, with
    the duration [PT0S] and the view count [0]. *)
Theorem videosWithDetails_defaults
    (allVideos : list Item.t) (videosData : Details.t)
    (i : nat) (item : Item.t) :
  nth_error allVideos i = Some item ->
  (forall v, In v (Details.items videosData) ->
             Video.id v <> Item.videoId (Item.contentDetails item)) ->
  exists video,
    nth_error (videosWithDetails allVideos videosData) i = Some video
    /\ Enriched.id video = Item.videoId (Item.contentDetails item)
    /\ Enriched.duration video = lit "PT0S"
    /\ Enriched.viewCount video = lit "0".
Proof.
  intros Hi Hno. exists (enrich videosData item). split.
  - unfold videosWithDetails. rewrite nth_error_map, Hi. reflexivity.
  - split; [reflexivity|]. apply enrich_without_details.
    apply videoDetails_absent. exact Hno.
Qed.

Lemma videosWithDetails_defaults_witness :
  exists video,
    nth_error (videosWithDetails [Sample.item_a; Sample.item_b; Sample.item_c]
                 Sample.some_details) 1 = Some video
    /\ Enriched.id video = Item.videoId (Item.contentDetails Sample.item_b)
    /\ Enriched.duration video = lit "PT0S"
    /\ Enriched.viewCount video = lit "0".
Proof.
  apply (videosWithDetails_defaults
           [Sample.item_a; Sample.item_b; Sample.item_c] Sample.some_details
           1 Sample.item_b).
  - reflexivity.
  - intros v [<- | [<- | []]]; vm_compute; discriminate.
Defined.

(* ================================================================== *)
(** ** [formatDuration] *)
(* ================================================================== *)

Lemma formatDuration_encoding (h m s : option jsstring) :
  well_formed h -> well_formed m -> well_formed s ->
  formatDuration (encoding h m s)
  = Returned
      match h with
      | Some hours =>
          hours ++ lit ":" ++ two_digits (digits_or_empty m)
                ++ lit ":" ++ two_digits (digits_or_empty s)
      | None =>
          match m with Some minutes => minutes | None => lit "0" end
          ++ lit ":" ++ two_digits (digits_or_empty s)
      end.
Proof.
  intros Hh Hm Hs. unfold formatDuration, encoding.
  rewrite regex_match_at_PT, (groups_encoding h m s Hh Hm Hs). cbv iota beta.
  rewrite (capture_digits 72%N h Hh eq_refl), (capture_digits 77%N m Hm eq_refl),
    (capture_digits 83%N s Hs eq_refl), !padStart_two_digits.
  destruct h as [hours|]; simpl in Hh.
  - apply andb_true_iff in Hh as [Hne _]. cbn [digits_or_empty].
    rewrite Hne. reflexivity.
  - cbn [digits_or_empty truthy]. destruct m as [minutes|]; simpl in Hm.
    + apply andb_true_iff in Hm as [Hne _]. cbn [digits_or_empty or_default].
      rewrite Hne. reflexivity.
    + reflexivity.
Qed.

(** C5.  On the encoding of a duration with optional hours, minutes and
    seconds, [formatDuration] returns the hours, the minutes on two digits
    and the seconds on two digits when the hours are present, and
    otherwise the minutes as they are, or [0] when absent, and the seconds
    on two digits; so [PT2H15M33S] gives [2:15:33], [PT15M33S] gives
    [15:33], [PT33S] gives [0:33] and [PT0S] gives [0:00]. *)
Theorem formatDuration_formats_encodings :
  (forall h m s : option jsstring,
      well_formed h -> well_formed m -> well_formed s ->
      formatDuration (encoding h m s)
      = Returned
          match h with
          | Some hours =>
              hours ++ lit ":" ++ two_digits (digits_or_empty m)
                    ++ lit ":" ++ two_digits (digits_or_empty s)
          | None =>
              match m with Some minutes => minutes | None => lit "0" end
              ++ lit ":" ++ two_digits (digits_or_empty s)
          end)
  /\ formatDuration (lit "PT2H15M33S") = Returned (lit "2:15:33")
  /\ formatDuration (lit "PT15M33S") = Returned (lit "15:33")
  /\ formatDuration (lit "PT33S") = Returned (lit "0:33")
  /\ formatDuration (lit "PT0S") = Returned (lit "0:00").
Proof.
  split; [exact formatDuration_encoding|].
  repeat split; vm_compute; reflexivity.
Qed.

Lemma formatDuration_formats_encodings_witness :
  formatDuration (encoding (Some (lit "2")) None (Some (lit "5")))
  = Returned (lit "2" ++ lit ":" ++ two_digits [] ++ lit ":" ++ two_digits (lit "5")).
Proof.
  apply (proj1 formatDuration_formats_encodings
           (Some (lit "2")) None (Some (lit "5"))).
  - vm_compute. reflexivity.
  - exact I.
  - vm_compute. reflexivity.
Defined.

Example formatDuration_hours_without_minutes :
  formatDuration (lit "PT2H5S") = Returned (lit "2:00:05").
Proof. vm_compute. reflexivity. Qed.

Lemma enrich_missing_duration videosData item :
  truthy_opt
    (chain Video.duration
       (chain Video.contentDetails (videoDetails videosData item))) = false ->
  Enriched.duration (enrich videosData item) = lit "PT0S".
Proof.
  intros H. unfold enrich. cbn [Enriched.duration].
  destruct (chain Video.duration _) as [d|]; simpl in *.
  - rewrite H. reflexivity.
  - reflexivity.
Qed.

Lemma formatDuration_throws_without_PT duration :
  ~ has_PT duration -> formatDuration duration = Thrown (TypeError (lit "1")).
Proof.
  intros Hno. unfold formatDuration.
  destruct (regex_match duration) as [caps|] eqn:E; [|reflexivity].
  exfalso. apply Hno. exact (regex_match_has_PT _ _ E).
Qed.

Lemma formatDuration_returns_with_PT duration :
  has_PT duration -> exists text, formatDuration duration = Returned text.
Proof.
  intros Hpt. destruct (regex_match_some _ Hpt) as [caps E].
  exact (formatDuration_total_on_match _ _ E).
Qed.

(** [formatDuration] is partial: on a string that does not contain [PT]
    the search finds nothing and reading the first capture throws; on a
    string that contains [PT] it returns.  In the join, a record for which
    the detail lookup yields no duration (no detail record, none of its
    fields, or an empty one) gets the duration [PT0S], on which
    [formatDuration] returns [0:00]. *)
Lemma formatDuration_partial :
  (forall duration, ~ has_PT duration ->
                    formatDuration duration = Thrown (TypeError (lit "1")))
  /\ (forall duration, has_PT duration ->
                       exists text, formatDuration duration = Returned text)
  /\ (forall videosData item,
         truthy_opt
           (chain Video.duration
              (chain Video.contentDetails (videoDetails videosData item)))
         = false ->
         formatDuration (Enriched.duration (enrich videosData item))
         = Returned (lit "0:00")).
Proof.
  split; [exact formatDuration_throws_without_PT|].
  split; [exact formatDuration_returns_with_PT|].
  intros videosData item H. rewrite (enrich_missing_duration _ _ H).
  vm_compute. reflexivity.
Qed.

Lemma no_PT_in_P0D : ~ has_PT (lit "P0D").
Proof.
  intros [pre [post E]]. vm_compute in E.
  destruct pre as [|a [|b [|c [|d pre]]]]; discriminate E.
Qed.

Example formatDuration_partial_instances :
  formatDuration (lit "P0D") = Thrown (TypeError (lit "1"))
  /\ (exists text, formatDuration (lit "xPT7M") = Returned text)
  /\ formatDuration
       (Enriched.duration (enrich Sample.some_details Sample.item_b))
     = Returned (lit "0:00").
Proof.
  split; [|split].
  - apply (proj1 formatDuration_partial (lit "P0D")). exact no_PT_in_P0D.
  - apply (proj1 (proj2 formatDuration_partial) (lit "xPT7M")).
    exists (lit "x"), (lit "7M"). vm_compute. reflexivity.
  - apply (proj2 (proj2 formatDuration_partial) Sample.some_details Sample.item_b).
    vm_compute. reflexivity.
Qed.

(** C9.  The caller does not keep [formatDuration] within its domain: the
    join replaces a missing duration only, and passes on the duration of a
    detail record as it is.  For the detail record of a live broadcast,
    whose duration the provider gives as [P0D], the enriched video carries
    [P0D], which contains no [PT]; [formatDuration] throws on it, and so
    does [createVideoCard], whatever the locale functions are. *)
Theorem formatDuration_reached_without_PT :
  Enriched.duration (enrich Sample.live_details Sample.item_a) = lit "P0D"
  /\ ~ has_PT (Enriched.duration (enrich Sample.live_details Sample.item_a))
  /\ formatDuration (Enriched.duration (enrich Sample.live_details Sample.item_a))
     = Thrown (TypeError (lit "1"))
  /\ forall toLocaleDateString_es parseInt_toLocaleString_es,
       createVideoCard toLocaleDateString_es parseInt_toLocaleString_es
         (enrich Sample.live_details Sample.item_a)
       = Thrown (TypeError (lit "1")).
Proof.
  assert (E : Enriched.duration (enrich Sample.live_details Sample.item_a)
              = lit "P0D") by (vm_compute; reflexivity).
  split; [exact E|]. rewrite E. split; [exact no_PT_in_P0D|].
  split; [vm_compute; reflexivity|].
  intros f h. unfold createVideoCard. rewrite E.
  rewrite (formatDuration_throws_without_PT _ no_PT_in_P0D). reflexivity.
Qed.

(* ================================================================== *)
(** ** [truncateText] *)
(* ================================================================== *)

(** C6, amended.  [truncateText] returns the text unchanged when its
    length is at most the maximum; otherwise it returns the first
    [maxLength] characters of the text (none when [maxLength] is
    negative) with the white space at both ends removed, followed by
    three full stops. *)
Theorem truncateText_cuts_and_trims (text : jsstring) (maxLength : Z) :
  ((Z.of_nat (length text) <= maxLength)%Z ->
   truncateText text maxLength = text)
  /\ ((maxLength < Z.of_nat (length text))%Z ->
      exists lead core trail,
        firstn (Z.to_nat maxLength) text = lead ++ core ++ trail
        /\ forallb is_space lead = true
        /\ forallb is_space trail = true
        /\ bare core
        /\ truncateText text maxLength = core ++ lit "...").
Proof.
  unfold truncateText. split; intros H.
  - destruct (Z.leb_spec (Z.of_nat (length text)) maxLength); [reflexivity | lia].
  - destruct (Z.leb_spec (Z.of_nat (length text)) maxLength); [lia|].
    destruct (trim_split (substring0 text maxLength))
      as [lead [trail [E [Hl [Ht Hb]]]]].
    exists lead, (trim (substring0 text maxLength)), trail.
    repeat split; assumption.
Qed.

Lemma truncateText_cuts_and_trims_witness :
  truncateText (lit "abc") 5 = lit "abc"
  /\ exists lead core trail,
       firstn (Z.to_nat 5) (lit "  hello world") = lead ++ core ++ trail
       /\ forallb is_space lead = true
       /\ forallb is_space trail = true
       /\ bare core
       /\ truncateText (lit "  hello world") 5 = core ++ lit "...".
Proof.
  split.
  - apply (proj1 (truncateText_cuts_and_trims (lit "abc") 5)).
    vm_compute. discriminate.
  - apply (proj2 (truncateText_cuts_and_trims (lit "  hello world") 5)).
    vm_compute. reflexivity.
Defined.

(** C6 as the specification states it fails: white space at the front of
    the cut is removed too, so fewer than [maxLength] characters of the text may
    precede the full stops. *)
Lemma truncateText_counterexample :
  truncateText (lit "  hello world") 5 = lit "hel..."
  /\ trimEnd (firstn 5 (lit "  hello world")) ++ lit "..." = lit "  hel..."
  /\ truncateText (lit "  hello world") 5
     <> trimEnd (firstn 5 (lit "  hello world")) ++ lit "...".
Proof.
  split; [vm_compute; reflexivity|]. split; [vm_compute; reflexivity|].
  vm_compute. discriminate.
Qed.

(* ================================================================== *)
(** ** Rendering and orchestration *)
(* ================================================================== *)

Lemma join_empty_separator (l : list jsstring) : join [] l = concat l.
Proof.
  induction l as [|s [|t l] IH]; [reflexivity | simpl; rewrite app_nil_r; reflexivity |].
  change (join [] (s :: t :: l)) with (s ++ [] ++ join [] (t :: l)).
  rewrite IH. reflexivity.
Qed.

Lemma plural_word : lit " vídeos" = lit " vídeo" ++ lit "s".
Proof. vm_compute. reflexivity. Qed.

Lemma summary_text (n : nat) : videos_note_text n = summary n.
Proof.
  unfold videos_note_text, summary. destruct (n =? 1); cbn [negb].
  - reflexivity.
  - rewrite plural_word, <- app_assoc. reflexivity.
Qed.

Section Rendering.

Variable toLocaleDateString_es : jsstring -> jsstring.
Variable parseInt_toLocaleString_es : jsstring -> jsstring.
Variable engine_message : exn -> jsstring.

Local Abbreviation card_of :=
  (createVideoCard toLocaleDateString_es parseInt_toLocaleString_es).
Local Abbreviation cards_of :=
  (cards toLocaleDateString_es parseInt_toLocaleString_es).
Local Abbreviation render :=
  (renderVideos toLocaleDateString_es parseInt_toLocaleString_es).
Local Abbreviation initialize :=
  (initializePlaylist toLocaleDateString_es parseInt_toLocaleString_es
     engine_message).

Lemma createVideoCard_returns video :
  has_PT (Enriched.duration video) ->
  exists card, card_of video = Returned card.
Proof.
  intros H. destruct (formatDuration_returns_with_PT _ H) as [text E].
  unfold createVideoCard. rewrite E. eauto.
Qed.

Lemma createVideoCard_throws video :
  ~ has_PT (Enriched.duration video) ->
  card_of video = Thrown (TypeError (lit "1")).
Proof.
  intros H. unfold createVideoCard.
  rewrite (formatDuration_throws_without_PT _ H). reflexivity.
Qed.

Lemma cards_return videos :
  (forall video, In video videos -> has_PT (Enriched.duration video)) ->
  exists l,
    cards_of videos = Returned l
    /\ Forall2 (fun video card => card_of video = Returned card) videos l.
Proof.
  induction videos as [|video videos IH]; intros H.
  - exists []. split; [reflexivity | constructor].
  - destruct (createVideoCard_returns video (H video (or_introl eq_refl)))
      as [card Ec].
    destruct IH as [l [El Hl]]; [intros v Hv; apply H; right; exact Hv|].
    exists (card :: l). split.
    + cbn [cards]. rewrite Ec, El. reflexivity.
    + constructor; assumption.
Qed.

Lemma renderVideos_nonempty videos l w html :
  videos <> [] ->
  cards_of videos = Returned l ->
  videos_grid w = Some html ->
  render videos w
  = (Returned tt,
     match videos_note w with
     | Some _ => set_videos_note (set_videos_grid w (concat l))
                   (summary (length videos))
     | None => set_videos_grid w (concat l)
     end).
Proof.
  intros Hne El Hg. unfold renderVideos.
  destruct videos as [|video videos]; [contradiction|].
  cbn [length Nat.eqb]. unfold bind at 1, lift. rewrite El.
  unfold bind, set_grid, set_note_if_present. rewrite Hg.
  rewrite join_empty_separator, summary_text.
  cbn [videos_note set_videos_grid].
  destruct (videos_note w); reflexivity.
Qed.



End Rendering.

Lemma showError_run g message w :
  showError g message w
  = match videos_grid w with
    | None => (Thrown (TypeError (lit "innerHTML")), w)
    | Some _ => (Returned tt, set_videos_grid w (error_html g message))
    end.
Proof. reflexivity. Qed.

Lemma credential_check (config : Config) :
  truthy_opt (YOUTUBE_API_KEY config) = false
  \/ YOUTUBE_API_KEY config = Some (lit "TU_API_KEY_AQUI") ->
  negb (truthy_opt (YOUTUBE_API_KEY config))
  || match YOUTUBE_API_KEY config with
     | Some k => eqb k (lit "TU_API_KEY_AQUI")
     | None => false
     end = true.
Proof.
  intros [H | H]; rewrite H.
  - reflexivity.
  - rewrite eqb_refl. apply orb_true_r.
Qed.

Section Orchestration.

Variable toLocaleDateString_es : jsstring -> jsstring.
Variable parseInt_toLocaleString_es : jsstring -> jsstring.
Variable engine_message : exn -> jsstring.

Local Abbreviation initialize :=
  (initializePlaylist toLocaleDateString_es parseInt_toLocaleString_es
     engine_message).

Lemma initializePlaylist_unconfigured g :
  unconfigured g ->
  exists message,
    In message [msg_no_config; msg_no_key; msg_no_playlist]
    /\ (forall fuel net w,
           initialize fuel g net w = showError g message w)
    /\ (forall config,
           CONFIG g = Some config ->
           YOUTUBE_API_KEY config = Some (lit "TU_API_KEY_AQUI") ->
           message = msg_no_key).
Proof.
  intros U. unfold initializePlaylist.
  destruct (CONFIG g) as [config|] eqn:Ec.
  - destruct (negb (truthy_opt (YOUTUBE_API_KEY config)) || _) eqn:Ek.
    + exists msg_no_key. split; [right; left; reflexivity|].
      split; [reflexivity | intros; reflexivity].
    + assert (Hkey : ~ (truthy_opt (YOUTUBE_API_KEY config) = false
                        \/ YOUTUBE_API_KEY config = Some (lit "TU_API_KEY_AQUI"))).
      { intros H. rewrite (credential_check config H) in Ek. discriminate. }
      destruct U as [U | [[config' [E U]] | U]].
      * congruence.
      * assert (config' = config) as -> by congruence. contradiction.
      * exists msg_no_playlist. split; [right; right; left; reflexivity|].
        split.
        -- intros fuel net w. rewrite U. reflexivity.
        -- intros config' E K.
           assert (config' = config) as -> by congruence.
           exfalso. apply Hkey. right. exact K.
  - exists msg_no_config. split; [left; reflexivity|].
    split; [reflexivity | intros config E; discriminate].
Qed.


End Orchestration.

(** *** Concrete runs *)


Example placeholder_credential :
  initializePlaylist Sample.same Sample.same Sample.engine_message
    3 Sample.globals_placeholder Sample.net Sample.world
  = (Returned tt,
     set_videos_grid Sample.world
       (error_html Sample.globals_placeholder msg_no_key)).
Proof. vm_compute. reflexivity. Qed.




(** A listing of three records on one page, with details for all, from
    the start of [initializePlaylist] to the page. *)
Example three_videos_end_to_end :
  exists run l,
    run = initializePlaylist Sample.same Sample.same Sample.engine_message
            1 Sample.globals Sample.net_single_page Sample.world
    /\ fst run = Returned tt
    /\ length (requests (snd run)) = 2
    /\ videos_note (snd run)
       = Some (lit "3 vídeos en esta lista de reproducción.")
    /\ cards Sample.same Sample.same Sample.three_videos = Returned l
    /\ length l = 3
    /\ videos_grid (snd run) = Some (concat l).
Proof.
  eexists. eexists. split; [reflexivity|].
  split; [vm_compute; reflexivity|]. split; [vm_compute; reflexivity|].
  split; [vm_compute; reflexivity|]. split; [vm_compute; reflexivity|].
  split; vm_compute; reflexivity.
Qed.

(** A listing that holds a live broadcast: the list is fetched, no card
    is rendered, and the page shows the error state. *)
Example live_broadcast_end_to_end :
  let g := Sample.globals in
  let n := {| playlistItems := fun _ _ =>
                Sample.success {| Page.items := [Sample.item_a];
                                  Page.nextPageToken := None |};
              videos := fun _ _ => Sample.success Sample.live_details |} in
  initializePlaylist Sample.same Sample.same Sample.engine_message
    1 g n Sample.world
  = (Returned tt,
     set_requests
       (set_videos_grid Sample.world
          (error_html g (lit "Error al cargar los vídeos de YouTube. "
                         ++ Sample.engine_message (TypeError (lit "1")))))
       [playlistUrl (YOUTUBE_PLAYLIST_ID g) Sample.config [];
        videosUrl Sample.config (lit "a1")]).
Proof. vm_compute. reflexivity. Qed.

(* ================================================================== *)
(** * Further properties of the script *)
(* ================================================================== *)

(** ** [fetchPlaylistVideos] and the world *)

Lemma fetch_pages_step fuel g net allVideos tok w :
  fetch_pages (S fuel) g net allVideos tok w =
  match CONFIG g with
  | None => (Thrown (ReferenceError (lit "CONFIG")), w)
  | Some config =>
      let response := page_response g net config (requests w) tok in
      let w' := set_requests w (listing_requests g config (requests w) tok) in
      if negb (ok response) then (Thrown (playlist_error response), w')
      else if truthy (or_default (Page.nextPageToken (json response)) [])
      then fetch_pages fuel g net (allVideos ++ Page.items (json response))
             (or_default (Page.nextPageToken (json response)) []) w'
      else (Returned (allVideos ++ Page.items (json response)), w')
  end.
Proof.
  cbn [fetch_pages]. unfold bind at 1, lift, read_CONFIG.
  destruct (CONFIG g) as [config|]; [|reflexivity].
  unfold bind, fetch, page_response, listing_requests. cbv zeta.
  destruct (negb (ok _)); [reflexivity|].
  destruct (truthy _); reflexivity.
Qed.

(** The loop touches nothing but the list of requests. *)
Lemma fetch_pages_frame fuel g net :
  forall allVideos tok w,
    console (snd (fetch_pages fuel g net allVideos tok w)) = console w
    /\ videos_grid (snd (fetch_pages fuel g net allVideos tok w)) = videos_grid w
    /\ videos_note (snd (fetch_pages fuel g net allVideos tok w)) = videos_note w.
Proof.
  induction fuel as [|fuel IH]; intros allVideos tok w.
  - repeat split; reflexivity.
  - rewrite fetch_pages_step.
    destruct (CONFIG g) as [config|]; [|repeat split; reflexivity].
    cbv zeta. destruct (negb (ok _)); [repeat split; reflexivity|].
    destruct (truthy _); [|repeat split; reflexivity].
    destruct (IH (allVideos
                  ++ Page.items
                       (json (page_response g net config (requests w) tok)))
                 (or_default
                    (Page.nextPageToken
                       (json (page_response g net config (requests w) tok))) [])
                 (set_requests w (listing_requests g config (requests w) tok)))
      as [A [B C]].
    rewrite A, B, C. repeat split; reflexivity.
Qed.

Lemma fetchPlaylistVideos_unfold fuel g net w :
  fetchPlaylistVideos fuel g net w =
  match fetch_pages fuel g net [] [] w with
  | (Returned allVideos, w') =>
      match CONFIG g with
      | None =>
          (Thrown (ReferenceError (lit "CONFIG")),
           set_console w'
             (console w'
              ++ [(fetch_error_label, ReferenceError (lit "CONFIG"))]))
      | Some config =>
          let videosResponse :=
            details_response net config (requests w') allVideos in
          let w'' :=
            set_requests w' (requests w' ++ [details_request config allVideos]) in
          if ok videosResponse
          then (Returned (videosWithDetails allVideos (json videosResponse)), w'')
          else (Thrown (details_error videosResponse),
                set_console w''
                  (console w''
                   ++ [(fetch_error_label, details_error videosResponse)]))
      end
  | (Thrown e, w') =>
      (Thrown e, set_console w' (console w' ++ [(fetch_error_label, e)]))
  | (OutOfFuel, w') => (OutOfFuel, w')
  end.
Proof.
  unfold fetchPlaylistVideos, try_catch, fetch_error_label. unfold bind at 1.
  destruct (fetch_pages fuel g net [] [] w) as [[allVideos|e|] w'].
  - unfold bind at 1, lift, read_CONFIG.
    destruct (CONFIG g) as [config|].
    + unfold bind at 1, fetch. cbv zeta.
      unfold details_response, details_request.
      destruct (ok _); cbn [negb].
      * unfold ret. reflexivity.
      * unfold throw, bind, console_error. reflexivity.
    + unfold throw, bind, console_error. reflexivity.
  - unfold throw, bind, console_error. reflexivity.
  - reflexivity.
Qed.

Lemma fetchPlaylistVideos_frame fuel g net w :
  videos_grid (snd (fetchPlaylistVideos fuel g net w)) = videos_grid w
  /\ videos_note (snd (fetchPlaylistVideos fuel g net w)) = videos_note w.
Proof.
  rewrite fetchPlaylistVideos_unfold.
  destruct (fetch_pages_frame fuel g net [] [] w) as [_ [B C]].
  destruct (fetch_pages fuel g net [] [] w) as [[allVideos|e|] w'];
    cbn [fst snd] in B, C; try (split; assumption).
  destruct (CONFIG g) as [config|]; [|split; assumption].
  cbv zeta. destruct (ok _); split; assumption.
Qed.

(** X1.  [fetchPlaylistVideos] never writes to the page: the grid and the
    summary element are as they were, whether it returns, throws or keeps
    running.  It writes to the console exactly when it throws, and then
    one entry, carrying the error it throws. *)
Theorem fetchPlaylistVideos_keeps_page fuel g net w :
  videos_grid (snd (fetchPlaylistVideos fuel g net w)) = videos_grid w
  /\ videos_note (snd (fetchPlaylistVideos fuel g net w)) = videos_note w
  /\ console (snd (fetchPlaylistVideos fuel g net w))
     = match fst (fetchPlaylistVideos fuel g net w) with
       | Thrown e => console w ++ [(fetch_error_label, e)]
       | _ => console w
       end.
Proof.
  destruct (fetchPlaylistVideos_frame fuel g net w) as [G N].
  split; [exact G|]. split; [exact N|].
  rewrite fetchPlaylistVideos_unfold.
  destruct (fetch_pages_frame fuel g net [] [] w) as [A _].
  destruct (fetch_pages fuel g net [] [] w) as [[allVideos|e|] w'];
    cbn [fst snd] in A.
  - destruct (CONFIG g) as [config|].
    + cbv zeta. destruct (ok _);
        cbn [fst snd console set_requests set_console]; rewrite A; reflexivity.
    + cbn [fst snd console set_console]. rewrite A. reflexivity.
  - cbn [fst snd console set_console]. rewrite A. reflexivity.
  - cbn [fst snd]. exact A.
Qed.

(** X2.  Called where [js/config.js] was not loaded, [fetchPlaylistVideos]
    throws the engine's [ReferenceError] for [CONFIG] before any request
    is made, and logs it. *)
Theorem fetchPlaylistVideos_without_config fuel g net w :
  CONFIG g = None ->
  fetchPlaylistVideos (S fuel) g net w
  = (Thrown (ReferenceError (lit "CONFIG")),
     set_console w
       (console w ++ [(fetch_error_label, ReferenceError (lit "CONFIG"))])).
Proof.
  intros H. rewrite fetchPlaylistVideos_unfold, fetch_pages_step, H.
  reflexivity.
Qed.

Lemma fetchPlaylistVideos_without_config_witness :
  fetchPlaylistVideos 1 Scenario.globals_without_config Sample.net Sample.world
  = (Thrown (ReferenceError (lit "CONFIG")),
     set_console Sample.world
       (console Sample.world
        ++ [(fetch_error_label, ReferenceError (lit "CONFIG"))])).
Proof.
  apply (fetchPlaylistVideos_without_config 0 Scenario.globals_without_config
           Sample.net Sample.world).
  reflexivity.
Defined.

Lemma fetch_pages_never_ending g net config :
  CONFIG g = Some config ->
  never_ending net ->
  forall fuel allVideos tok w,
    fst (fetch_pages fuel g net allVideos tok w) = OutOfFuel
    /\ length (requests (snd (fetch_pages fuel g net allVideos tok w)))
       = length (requests w) + fuel.
Proof.
  intros Hc Hn. induction fuel as [|fuel IH]; intros allVideos tok w.
  - split; [reflexivity | simpl; lia].
  - rewrite fetch_pages_step, Hc. cbv zeta. unfold page_response.
    destruct (Hn (requests w) (playlistUrl (YOUTUBE_PLAYLIST_ID g) config tok))
      as [Hok Ht].
    rewrite Hok. cbn [negb].
    destruct (Page.nextPageToken _) as [t|]; [|discriminate Ht].
    cbn [truthy_opt] in Ht. cbn [or_default]. rewrite Ht. cbv iota. rewrite Ht.
    destruct (IH (allVideos
                  ++ Page.items
                       (json (playlistItems net (requests w)
                                (playlistUrl
                                      (YOUTUBE_PLAYLIST_ID g) config tok))))
                 t
                 (set_requests w (listing_requests g config (requests w) tok)))
      as [A B].
    split; [exact A|]. rewrite B. unfold listing_requests.
    rewrite set_requests_requests, length_app. simpl. lia.
Qed.

(** X3.  The loop has no bound of its own: with a provider that hands out
    a cursor with every page, [fetchPlaylistVideos] neither returns nor
    throws, however many turns it is given, and makes one more request
    with every turn. *)
Theorem fetchPlaylistVideos_never_ending g net config fuel w :
  CONFIG g = Some config ->
  never_ending net ->
  fst (fetchPlaylistVideos fuel g net w) = OutOfFuel
  /\ length (requests (snd (fetchPlaylistVideos fuel g net w)))
     = length (requests w) + fuel.
Proof.
  intros Hc Hn. rewrite fetchPlaylistVideos_unfold.
  destruct (fetch_pages_never_ending g net config Hc Hn fuel [] [] w) as [A B].
  destruct (fetch_pages fuel g net [] [] w) as [[allVideos|e|] w'];
    cbn [fst snd] in A, B; try discriminate A.
  split; [reflexivity | exact B].
Qed.

Lemma fetchPlaylistVideos_never_ending_witness :
  fst (fetchPlaylistVideos 7 Sample.globals Scenario.endless Sample.world)
  = OutOfFuel
  /\ length (requests (snd (fetchPlaylistVideos 7 Sample.globals
        Scenario.endless
                              Sample.world)))
     = length (requests Sample.world) + 7.
Proof.
  apply (fetchPlaylistVideos_never_ending Sample.globals Scenario.endless
           Sample.config 7 Sample.world).
  - reflexivity.
  - intros log address. split; reflexivity.
Defined.

(** X4.  After a complete listing and a successful detail response,
    [fetchPlaylistVideos] returns the join of all the records fetched, in
    order, with that response, having made one request per page and then
    a single detail request, whose address lists the identifiers of all
    the records, separated by commas; the console and the page are as
    they were. *)
Theorem fetchPlaylistVideos_returns_join g net config batches log tok fuel w :
  CONFIG g = Some config ->
  served g net config (requests w) [] batches log tok ->
  ok (page_response g net config log tok) = true ->
  truthy_opt (Page.nextPageToken (json (page_response g net config log tok)))
  = false ->
  length batches < fuel ->
  ok (details_response net config (listing_requests g config log tok)
        (concat (all_pages g net config batches log tok))) = true ->
  fetchPlaylistVideos fuel g net w
  = (Returned
       (videosWithDetails (concat (all_pages g net config batches log tok))
          (json (details_response net config (listing_requests g config log tok)
                   (concat (all_pages g net config batches log tok))))),
     set_requests w
       (listing_requests g config log tok
        ++ [videosUrl config
              (join (lit ",")
                 (videoIds (concat
                       (all_pages g net config batches log tok))))])).
Proof.
  intros Hc Hs Hok Hnone Hfuel Hd.
  rewrite (fetchPlaylistVideos_after_pages g net config Hc _ _ _ _
             (fetch_pages_complete g net config Hc _ _ _ _ _ Hs Hok Hnone Hfuel)).
  cbv zeta. rewrite set_requests_requests, Hd, set_requests_twice.
  unfold details_request, videoIds. reflexivity.
Qed.

Lemma fetchPlaylistVideos_returns_join_witness :
  fetchPlaylistVideos 2 Sample.globals Sample.net Sample.world
  = (Returned
       (videosWithDetails
          (concat (all_pages Sample.globals Sample.net Sample.config
                     [Sample.first_batch Sample.net] Sample.first_log
                           (lit "T2")))
          (json (details_response Sample.net Sample.config
                   (listing_requests Sample.globals Sample.config
                      Sample.first_log (lit "T2"))
                   (concat (all_pages Sample.globals Sample.net Sample.config
                              [Sample.first_batch Sample.net] Sample.first_log
                              (lit "T2")))))),
     set_requests Sample.world
       (listing_requests Sample.globals Sample.config Sample.first_log
             (lit "T2")
        ++ [videosUrl Sample.config
              (join (lit ",")
                 (videoIds
                    (concat (all_pages Sample.globals Sample.net Sample.config
                               [Sample.first_batch Sample.net] Sample.first_log
                               (lit "T2")))))])).
Proof.
  apply (fetchPlaylistVideos_returns_join Sample.globals Sample.net
        Sample.config
           [Sample.first_batch Sample.net] Sample.first_log (lit "T2") 2
           Sample.world).
  - reflexivity.
  - apply sample_first_page_served; vm_compute; reflexivity.
  - vm_compute. reflexivity.
  - vm_compute. reflexivity.
  - simpl. lia.
  - vm_compute. reflexivity.
Defined.

Example two_pages_one_detail_request :
  requests (snd (fetchPlaylistVideos 2 Sample.globals Sample.net Sample.world))
  = [Sample.first_url; Sample.second_url;
     lit "https://www.googleapis.com/youtube/v3/videos?part=contentDetails,statistics&id=a1,b2,c3&key=KEY"].
Proof. vm_compute. reflexivity. Qed.

(** X5.  When a listing response is not a success, [fetchPlaylistVideos]
    stops there: the request that was refused is the last one made, no
    detail request follows, and the error thrown is logged once. *)
Theorem fetchPlaylistVideos_stops_at_refusal
    g net config batches log tok fuel w :
  CONFIG g = Some config ->
  served g net config (requests w) [] batches log tok ->
  ok (page_response g net config log tok) = false ->
  length batches < fuel ->
  fetchPlaylistVideos fuel g net w
  = (Thrown (playlist_error (page_response g net config log tok)),
     set_console (set_requests w (listing_requests g config log tok))
       (console w
        ++ [(fetch_error_label,
             playlist_error (page_response g net config log tok))])).
Proof.
  intros Hc Hs Hok Hfuel.
  rewrite (fetchPlaylistVideos_after_refusal g net _ _ _ _
             (fetch_pages_failing g net config Hc _ _ _ _ _ Hs Hok Hfuel)).
  unfold fetch_error_label. cbn [console set_requests]. reflexivity.
Qed.

Lemma fetchPlaylistVideos_stops_at_refusal_witness :
  fetchPlaylistVideos 2 Sample.globals Sample.net_refusing_page Sample.world
  = (Thrown (playlist_error
               (page_response Sample.globals Sample.net_refusing_page
                  Sample.config Sample.first_log (lit "T2"))),
     set_console
       (set_requests Sample.world
          (listing_requests Sample.globals Sample.config Sample.first_log
             (lit "T2")))
       (console Sample.world
        ++ [(fetch_error_label,
             playlist_error
               (page_response Sample.globals Sample.net_refusing_page
                  Sample.config Sample.first_log (lit "T2")))])).
Proof.
  apply (fetchPlaylistVideos_stops_at_refusal Sample.globals
           Sample.net_refusing_page Sample.config
           [Sample.first_batch Sample.net_refusing_page] Sample.first_log
           (lit "T2") 2 Sample.world).
  - reflexivity.
  - apply sample_first_page_served; vm_compute; reflexivity.
  - vm_compute. reflexivity.
  - simpl. lia.
Defined.

(** ** Durations outside the hours, minutes and seconds *)

Lemma regex_match_without_P (s : jsstring) :
  forallb (fun c => negb (c =? 80)%N) s = true -> regex_match s = None.
Proof.
  induction s as [|c s IH]; intros H; [reflexivity|].
  cbn [forallb] in H. apply andb_true_iff in H as [Hc Hs].
  cbn [regex_match]. rewrite lit_PT. cbn [prefixb]. unfold char_eqb at 1.
  rewrite N.eqb_sym. apply negb_true_iff in Hc. rewrite Hc.
  cbn [andb]. apply IH. exact Hs.
Qed.

Lemma digits_without_P (ds : jsstring) :
  forallb is_digit ds = true -> forallb (fun c => negb (c =? 80)%N) ds = true.
Proof.
  induction ds as [|d ds IH]; intros H; [reflexivity|].
  cbn [forallb] in *. apply andb_true_iff in H as [Hd Hds].
  rewrite (IH Hds), andb_true_r.
  destruct (N.eqb_spec d 80) as [->|_]; [discriminate Hd | reflexivity].
Qed.

Lemma component_without_P (u : char) (o : option jsstring) :
  well_formed o -> u <> 80%N ->
  forallb (fun c => negb (c =? 80)%N) (component u o) = true.
Proof.
  intros Ho Hu. destruct o as [ds|]; [|reflexivity]. simpl in Ho.
  apply andb_true_iff in Ho as [_ Hds]. cbn [component].
  rewrite forallb_app, (digits_without_P ds Hds). cbn [forallb andb].
  destruct (N.eqb_spec u 80); [contradiction | reflexivity].
Qed.

Lemma regex_match_P_then_other (c : char) (rest : jsstring) :
  c <> 84%N -> regex_match (80%N :: c :: rest) = regex_match (c :: rest).
Proof.
  intros Hc.
  change (regex_match (80%N :: c :: rest))
    with (if prefixb (lit "PT") (80%N :: c :: rest)
          then Some (groups (skipn 2 (80%N :: c :: rest)))
          else regex_match (c :: rest)).
  rewrite lit_PT. cbn [prefixb]. unfold char_eqb.
  destruct (N.eqb_spec 84 c) as [E|_]; [symmetry in E; contradiction|].
  rewrite andb_false_r. reflexivity.
Qed.

(** X6.  [formatDuration] throws on every duration that has a day
    component, as the provider gives it for a video of a day or more and
    for a live broadcast: the days alone, or the days followed by hours,
    minutes and seconds. *)
Theorem formatDuration_throws_on_days
    (d : jsstring)
    (time : option (option jsstring * option jsstring * option jsstring)) :
  is_number d = true ->
  match time with
  | None => True
  | Some (h, m, s) => well_formed h /\ well_formed m /\ well_formed s
  end ->
  formatDuration (day_encoding d time) = Thrown (TypeError (lit "1")).
Proof.
  intros Hd Ht. unfold formatDuration.
  assert (E : regex_match (day_encoding d time) = None);
    [|rewrite E; reflexivity].
  apply andb_true_iff in Hd as [Hne Hds].
  destruct d as [|d1 d]; [discriminate Hne|].
  cbn [forallb] in Hds. apply andb_true_iff in Hds as [Hd1 Hds].
  unfold day_encoding. change (lit "P") with [80%N]. cbn [app].
  rewrite regex_match_P_then_other
    by (intros ->; discriminate Hd1).
  apply regex_match_without_P. cbn [forallb].
  rewrite !forallb_app, (digits_without_P d Hds).
  destruct (N.eqb_spec d1 80) as [->|_]; [discriminate Hd1|].
  cbn [negb andb]. change (lit "D") with [68%N]. cbn [forallb N.eqb negb andb].
  destruct time as [[[h m] s]|]; [|reflexivity].
  destruct Ht as [Hh [Hm Hs]]. change (lit "T") with [84%N].
  rewrite !forallb_app.
  rewrite (component_without_P 72%N h Hh), (component_without_P 77%N m Hm),
    (component_without_P 83%N s Hs) by discriminate.
  reflexivity.
Qed.

Lemma formatDuration_throws_on_days_witness :
  formatDuration
    (day_encoding (lit "1") (Some (Some (lit "2"), None, Some (lit "30"))))
  = Thrown (TypeError (lit "1")).
Proof.
  apply (formatDuration_throws_on_days (lit "1")
           (Some (Some (lit "2"), None, Some (lit "30")))).
  - vm_compute. reflexivity.
  - split; [vm_compute; reflexivity|]. split;
        [exact I | vm_compute; reflexivity].
Defined.

Example day_encodings :
  day_encoding (lit "1") (Some (Some (lit "2"), None, Some (lit "30")))
  = lit "P1DT2H30S"
  /\ day_encoding (lit "0") None = lit "P0D".
Proof. split; vm_compute; reflexivity. Qed.

(** ** The search of [formatDuration] is not anchored *)

Lemma regex_match_skips (pre rest : jsstring) :
  ~ has_PT pre ->
  regex_match (pre ++ lit "PT" ++ rest) = Some (groups rest).
Proof.
  induction pre as [|c pre IH]; intros Hno.
  - apply regex_match_at_PT.
  - cbn [app regex_match].
    destruct (prefixb (lit "PT") (c :: pre ++ lit "PT" ++ rest)) eqn:P.
    + exfalso. apply prefixb_split in P as [r E].
      rewrite lit_PT in E. cbn [app] in E.
      destruct pre as [|c2 pre]; cbn [app] in E.
      * discriminate E.
      * apply Hno. exists [], pre. rewrite lit_PT.
        injection E as -> -> _. reflexivity.
    + apply IH. intros [a [b ->]]. apply Hno. exists (c :: a), b. reflexivity.
Qed.

Lemma groups_with_seconds (h m : option jsstring) (ds junk : jsstring) :
  well_formed h -> well_formed m -> is_number ds = true ->
  groups (component 72%N h ++ component 77%N m ++ (ds ++ [83%N]) ++ junk)
  = (option_map (fun ds : jsstring => ds ++ [72%N]) h,
     option_map (fun ds : jsstring => ds ++ [77%N]) m,
     Some (ds ++ [83%N])).
Proof.
  intros Hh Hm Hs. unfold groups.
  assert (Ds : forallb is_digit ds = true)
    by (apply andb_true_iff in Hs as [_ Hs]; exact Hs).
  assert (Es : (ds ++ [83%N]) ++ junk = ds ++ 83%N :: junk)
    by (rewrite <- app_assoc; reflexivity).
  assert (Gs : group 83%N ((ds ++ [83%N]) ++ junk) = (Some (ds ++
        [83%N]), junk)).
  { rewrite Es. apply group_present; [assumption | reflexivity]. }
  assert (Gm : group 77%N (component 77%N m ++ (ds ++ [83%N]) ++ junk)
               = (option_map (fun ds : jsstring => ds ++ [77%N]) m,
                  (ds ++ [83%N]) ++ junk)).
  { destruct m as [dm|]; simpl in Hm; cbn [component option_map].
    - rewrite <- app_assoc. cbn [app].
      apply group_present; [assumption | reflexivity].
    - cbn [app]. rewrite Es.
      apply group_other_unit; [assumption | reflexivity | discriminate]. }
  assert (Gh : group 72%N (component 72%N h ++ component 77%N m
                           ++ (ds ++ [83%N]) ++ junk)
               = (option_map (fun ds : jsstring => ds ++ [72%N]) h,
                  component 77%N m ++ (ds ++ [83%N]) ++ junk)).
  { destruct h as [dh|]; simpl in Hh; cbn [component option_map].
    - rewrite <- app_assoc. cbn [app].
      apply group_present; [assumption | reflexivity].
    - cbn [app]. destruct m as [dm|]; simpl in Hm; cbn [component].
      + apply andb_true_iff in Hm as [_ Hm]. rewrite <- app_assoc. cbn [app].
        apply group_other_unit; [assumption | reflexivity | discriminate].
      + cbn [app]. rewrite Es.
        apply group_other_unit; [assumption | reflexivity | discriminate]. }
  rewrite Gh, Gm, Gs. reflexivity.
Qed.

(** X7.  [formatDuration] reads the first [PT] of its input and the
    components right after it: text before the encoding that holds no
    [PT], and any text after the seconds, change nothing. *)
Theorem formatDuration_unanchored
    (pre junk : jsstring) (h m : option jsstring) (ds : jsstring) :
  ~ has_PT pre ->
  well_formed h -> well_formed m -> is_number ds = true ->
  formatDuration (pre ++ encoding h m (Some ds) ++ junk)
  = formatDuration (encoding h m (Some ds)).
Proof.
  intros Hno Hh Hm Hs. unfold formatDuration, encoding.
  replace (pre ++ (lit "PT" ++ component 72%N h ++ component 77%N m
                   ++ component 83%N (Some ds)) ++ junk)
    with (pre ++ lit "PT"
          ++ (component 72%N h ++ component 77%N m ++ (ds ++ [83%N]) ++ junk))
    by (cbn [component]; rewrite <- !app_assoc; reflexivity).
  rewrite (regex_match_skips _ _ Hno),
        (groups_with_seconds h m ds junk Hh Hm Hs).
  rewrite regex_match_at_PT, (groups_encoding h m (Some ds) Hh Hm Hs).
  reflexivity.
Qed.

Lemma formatDuration_unanchored_witness :
  formatDuration
    (lit "about " ++ encoding None (Some (lit "15")) (Some (lit "33"))
     ++ lit " long")
  = formatDuration (encoding None (Some (lit "15")) (Some (lit "33"))).
Proof.
  apply (formatDuration_unanchored (lit "about ") (lit " long")
           None (Some (lit "15")) (lit "33")).
  - intros [a [b E]]. vm_compute in E.
    destruct a as [|a1 [|a2 [|a3 [|a4 [|a5 [|a6 [|a7 a]]]]]]];
      discriminate E.
  - exact I.
  - vm_compute. reflexivity.
  - vm_compute. reflexivity.
Defined.

(** ** The length of a truncated text *)

Lemma trim_length (s : jsstring) : length (trim s) <= length s.
Proof.
  destruct (trim_split s) as [lead [trail [E _]]].
  rewrite E at 2. rewrite !length_app. lia.
Qed.

Lemma ellipsis_length : length (lit "...") = 3.
Proof. vm_compute. reflexivity. Qed.

(** X8.  The text [truncateText] returns is never longer than the maximum
    plus the three full stops (three alone when the maximum is
    negative); so the description on a card is at most 123 code units
    long. *)
Theorem truncateText_length (text : jsstring) (maxLength : Z) :
  (Z.of_nat (length (truncateText text maxLength)) <= Z.max 0 maxLength + 3)%Z.
Proof.
  unfold truncateText.
  destruct (Z.leb_spec (Z.of_nat (length text)) maxLength) as [H|H]; [lia|].
  rewrite length_app, ellipsis_length.
  pose proof (trim_length (substring0 text maxLength)) as Ht.
  unfold substring0 in *.
  pose proof (firstn_le_length (Z.to_nat maxLength) text) as Hf.
  assert (Hn : length (firstn (Z.to_nat maxLength) text) <= Z.to_nat maxLength).
  { rewrite length_firstn. lia. }
  lia.
Qed.

(** ** The join and the order of the detail records *)

Lemma find_first {A} (f : A -> bool) (pre : list A) (x : A) (post : list A) :
  (forall y, In y pre -> f y = false) -> f x = true ->
  find f (pre ++ x :: post) = Some x.
Proof.
  induction pre as [|y pre IH]; intros Hpre Hx; cbn [app find].
  - rewrite Hx. reflexivity.
  - rewrite (Hpre y (or_introl eq_refl)). apply IH; [|exact Hx].
    intros z Hz. apply Hpre. right. exact Hz.
Qed.

Lemma find_filter {A} (p q : A -> bool) (l : list A) :
  (forall x, p x = true -> q x = true) ->
  find p (filter q l) = find p l.
Proof.
  intros H. induction l as [|x l IH]; [reflexivity|]. cbn [filter find].
  destruct (p x) eqn:Px.
  - rewrite (H x Px). cbn [find]. rewrite Px. reflexivity.
  - destruct (q x); [cbn [find]; rewrite Px|]; exact IH.
Qed.

Lemma videoDetails_unique videosData item v :
  NoDup (map Video.id (Details.items videosData)) ->
  In v (Details.items videosData) ->
  Video.id v = Item.videoId (Item.contentDetails item) ->
  videoDetails videosData item = Some v.
Proof.
  intros Hnd Hin Hid. unfold videoDetails.
  destruct (in_split v _ Hin) as [pre [post E]]. rewrite E in *.
  rewrite map_app in Hnd. cbn [map] in Hnd.
  apply NoDup_remove_2 in Hnd.
  apply find_first.
  - intros y Hy.
    destruct (eqb (Video.id y) (Item.videoId
          (Item.contentDetails item))) eqn:Ey;
      [|reflexivity].
    apply eqb_eq in Ey. exfalso. apply Hnd. apply in_or_app. left.
    rewrite Hid, <- Ey. apply in_map. exact Hy.
  - rewrite Hid. apply eqb_refl.
Qed.

(** X9.  When the identifiers of the detail records are distinct, the
    join finds the record of a playlist entry wherever it stands in the
    response, and the enriched video carries the duration and the view
    count of that record when these are non-empty strings. *)
Theorem enrich_finds_details videosData item v d c :
  NoDup (map Video.id (Details.items videosData)) ->
  In v (Details.items videosData) ->
  Video.id v = Item.videoId (Item.contentDetails item) ->
  chain Video.duration (Video.contentDetails v) = Some d -> d <> [] ->
  chain Video.viewCount (Video.statistics v) = Some c -> c <> [] ->
  Enriched.duration (enrich videosData item) = d
  /\ Enriched.viewCount (enrich videosData item) = c.
Proof.
  intros Hnd Hin Hid Hd Hdne Hc Hcne. unfold enrich.
  rewrite (videoDetails_unique _ _ _ Hnd Hin Hid).
  cbn [Enriched.duration Enriched.viewCount chain]. rewrite Hd, Hc.
  destruct d; [contradiction|]. destruct c; [contradiction|].
  split; reflexivity.
Qed.

Lemma enrich_finds_details_witness :
  Enriched.duration
    (enrich {| Details.items := Scenario.shuffled_details |} Sample.item_a)
  = lit "PT15M33S"
  /\ Enriched.viewCount
       (enrich {| Details.items := Scenario.shuffled_details |} Sample.item_a)
     = lit "7".
Proof.
  apply (enrich_finds_details {| Details.items := Scenario.shuffled_details |}
           Sample.item_a (Sample.detail "a1" "PT15M33S" "7")).
  - cbn [Details.items]. vm_compute.
    repeat (constructor; [simpl; intuition discriminate|]). constructor.
  - right. right. left. reflexivity.
  - vm_compute. reflexivity.
  - reflexivity.
  - vm_compute. discriminate.
  - reflexivity.
  - vm_compute. discriminate.
Defined.

Lemma about_playlist allVideos item v :
  In item allVideos ->
  eqb (Video.id v) (Item.videoId (Item.contentDetails item)) = true ->
  about allVideos v = true.
Proof.
  intros Hin E. unfold about. apply existsb_exists.
  exists (Item.videoId (Item.contentDetails item)). split; [|exact E].
  unfold videoIds. apply in_map with (f := fun i => Item.videoId
        (Item.contentDetails i)).
  exact Hin.
Qed.

(** X10.  Detail records about videos that are not in the playlist play
    no part in the join: leaving them out of the response gives the same
    enriched videos. *)
Theorem videosWithDetails_ignores_others
    (allVideos : list Item.t) (records : list Video.t) :
  videosWithDetails allVideos
    {| Details.items := filter (about allVideos) records |}
  = videosWithDetails allVideos {| Details.items := records |}.
Proof.
  unfold videosWithDetails. apply map_ext_in. intros item Hin.
  unfold enrich, videoDetails. cbn [Details.items].
  rewrite (find_filter _ (about allVideos) records
             (fun v => about_playlist allVideos item v Hin)).
  reflexivity.
Qed.

Example shuffled_details_joined :
  map Enriched.duration
    (videosWithDetails [Sample.item_a; Sample.item_b; Sample.item_c]
       {| Details.items := Scenario.shuffled_details |})
  = [lit "PT15M33S"; lit "PT0S"; lit "PT2H15M33S"]
  /\ filter (about [Sample.item_a; Sample.item_b; Sample.item_c])
       Scenario.shuffled_details
     = [Sample.detail "c3" "PT2H15M33S" "1200";
        Sample.detail "a1" "PT15M33S" "7"].
Proof. split; vm_compute; reflexivity. Qed.

(** ** Rendering is all or nothing *)

Lemma configured_or_not (g : Globals) :
  unconfigured g \/ exists config, configured g config.
Proof.
  unfold unconfigured, configured.
  destruct (CONFIG g) as [config|] eqn:Ec; [|left; left; reflexivity].
  destruct (truthy_opt (YOUTUBE_API_KEY config)) eqn:Ek.
  - destruct (YOUTUBE_API_KEY config) as [k|] eqn:Ekey; [|discriminate Ek].
    destruct (eqb k (lit "TU_API_KEY_AQUI")) eqn:Ep.
    + apply eqb_eq in Ep. subst k. left. right. left. exists config.
      split; [reflexivity|]. right. exact Ekey.
    + destruct (truthy_opt (YOUTUBE_PLAYLIST_ID g)) eqn:Ei.
      * right. exists config. rewrite Ekey. repeat split; try assumption.
        intros [= ->]. rewrite eqb_refl in Ep. discriminate Ep.
      * left. right. right. reflexivity.
  - left. right. left. exists config. split; [reflexivity|]. left. exact Ek.
Qed.

Lemma error_html_not_loading g message : error_html g message <> loading_html.
Proof.
  intros E. apply (f_equal (firstn 24)) in E. vm_compute in E. discriminate E.
Qed.

Lemma no_videos_html_not_loading : no_videos_html <> loading_html.
Proof. vm_compute. discriminate. Qed.

Lemma article_not_loading (t : jsstring) :
  lit "
        <article class=" ++ t <> loading_html.
Proof.
  intros E. apply (f_equal (firstn 12)) in E. vm_compute in E. discriminate E.
Qed.

Section Page.

Variable toLocaleDateString_es : jsstring -> jsstring.
Variable parseInt_toLocaleString_es : jsstring -> jsstring.
Variable engine_message : exn -> jsstring.

Local Abbreviation card_of :=
  (createVideoCard toLocaleDateString_es parseInt_toLocaleString_es).
Local Abbreviation cards_of :=
  (cards toLocaleDateString_es parseInt_toLocaleString_es).
Local Abbreviation render :=
  (renderVideos toLocaleDateString_es parseInt_toLocaleString_es).
Local Abbreviation initialize :=
  (initializePlaylist toLocaleDateString_es parseInt_toLocaleString_es
     engine_message).

Lemma createVideoCard_outcome video :
  (exists t, card_of video = Returned (lit "
        <article class=" ++ t))
  \/ card_of video = Thrown (TypeError (lit "1")).
Proof.
  unfold createVideoCard, formatDuration.
  destruct (regex_match (Enriched.duration video)) as [[[m1 m2] m3]|];
    [|right; reflexivity].
  left. destruct (truthy _); eexists; reflexivity.
Qed.

Lemma cards_outcome videos :
  (exists l, cards_of videos = Returned l
             /\ length l = length videos
             /\ (videos <> [] ->
                 exists t, concat l = lit "
        <article class=" ++ t))
  \/ cards_of videos = Thrown (TypeError (lit "1")).
Proof.
  induction videos as [|video videos IH].
  - left. exists []. repeat split. intros H. contradiction.
  - cbn [cards].
    destruct (createVideoCard_outcome video) as [[t Ec] | Ec]; rewrite Ec;
      [|right; reflexivity].
    destruct IH as [[l [El [Hlen _]]] | El]; rewrite El; [|right; reflexivity].
    left. eexists. split; [reflexivity|]. split;
          [simpl; rewrite Hlen; reflexivity|].
    intros _. exists (t ++ concat l). cbn [concat]. rewrite <- app_assoc.
    reflexivity.
Qed.

(** What [renderVideos] does on a page that has the grid element. *)
Lemma renderVideos_cases videos w html :
  videos_grid w = Some html ->
  (videos = []
   /\ render videos w = (Returned tt, set_videos_grid w no_videos_html))
  \/ (exists l,
         videos <> []
         /\ cards_of videos = Returned l
         /\ render videos w
            = (Returned tt,
               match videos_note w with
               | Some _ => set_videos_note (set_videos_grid w (concat l))
                             (summary (length videos))
               | None => set_videos_grid w (concat l)
               end))
  \/ (videos <> []
      /\ render videos w = (Thrown (TypeError (lit "1")), w)).
Proof.
  intros Hg. destruct videos as [|video videos].
  - left. split; [reflexivity|]. unfold renderVideos. cbn [length Nat.eqb].
    unfold set_grid. rewrite Hg. reflexivity.
  - right.
    destruct (cards_outcome (video :: videos)) as [[l [El _]] | El].
    + left. exists l. split; [discriminate|]. split; [exact El|].
      apply (renderVideos_nonempty toLocaleDateString_es
               parseInt_toLocaleString_es (video :: videos) l w html);
        [discriminate | exact El | exact Hg].
    + right. split; [discriminate|]. unfold renderVideos.
      cbn [length Nat.eqb]. unfold bind, lift. rewrite El. reflexivity.
Qed.

(** X11.  [renderVideos] is all or nothing: either it returns, or it
    throws and leaves the page exactly as it was, so that no part of a
    list is ever shown; and it makes no request and writes nothing to the
    console. *)
Theorem renderVideos_atomic videos w :
  (fst (renderVideos toLocaleDateString_es parseInt_toLocaleString_es videos w)
   = Returned tt
   \/ exists e,
        renderVideos toLocaleDateString_es parseInt_toLocaleString_es videos w
        = (Thrown e, w))
  /\ requests
       (snd (renderVideos toLocaleDateString_es parseInt_toLocaleString_es
               videos w))
     = requests w
  /\ console
       (snd (renderVideos toLocaleDateString_es parseInt_toLocaleString_es
               videos w))
     = console w.
Proof.
  destruct (videos_grid w) as [html|] eqn:Hg.
  - destruct (renderVideos_cases videos w html Hg)
      as [[_ E] | [[l [_ [_ E]]] | [_ E]]]; rewrite E; cbn [fst snd].
    + split; [left; reflexivity | split; reflexivity].
    + split; [left; reflexivity|]. destruct (videos_note w); split; reflexivity.
    + split; [right; eexists; reflexivity | split; reflexivity].
  - unfold renderVideos. destruct videos as [|video videos].
    + cbn [length Nat.eqb]. unfold set_grid. rewrite Hg. cbn [fst snd].
      split; [right; eexists; reflexivity | split; reflexivity].
    + cbn [length Nat.eqb]. unfold bind at 1, lift.
      destruct (cards_outcome (video :: videos)) as [[l [El _]] | El];
        rewrite El.
      * unfold bind, set_grid. rewrite Hg. cbn [fst snd].
        split; [right; eexists; reflexivity | split; reflexivity].
      * cbn [fst snd].
        split; [right; eexists; reflexivity | split; reflexivity].
Qed.

End Page.

(** ** The paths of [initializePlaylist] *)

Section Loading.

Variable toLocaleDateString_es : jsstring -> jsstring.
Variable parseInt_toLocaleString_es : jsstring -> jsstring.
Variable engine_message : exn -> jsstring.

Local Abbreviation card_of :=
  (createVideoCard toLocaleDateString_es parseInt_toLocaleString_es).
Local Abbreviation cards_of :=
  (cards toLocaleDateString_es parseInt_toLocaleString_es).
Local Abbreviation render :=
  (renderVideos toLocaleDateString_es parseInt_toLocaleString_es).
Local Abbreviation initialize :=
  (initializePlaylist toLocaleDateString_es parseInt_toLocaleString_es
     engine_message).

Lemma credential_accepted (config : Config) :
  truthy_opt (YOUTUBE_API_KEY config) = true ->
  YOUTUBE_API_KEY config <> Some (lit "TU_API_KEY_AQUI") ->
  negb (truthy_opt (YOUTUBE_API_KEY config))
  || match YOUTUBE_API_KEY config with
     | Some k => eqb k (lit "TU_API_KEY_AQUI")
     | None => false
     end = false.
Proof.
  intros Ht Hne. rewrite Ht. cbn [negb orb].
  destruct (YOUTUBE_API_KEY config) as [k|]; [|reflexivity].
  destruct (eqb k (lit "TU_API_KEY_AQUI")) eqn:E; [|reflexivity].
  apply eqb_eq in E. subst k. contradiction.
Qed.

(** With the preconditions met and the grid in place, the loading
    markup is written, the videos are fetched from that state and
    rendered, and whatever is thrown on the way is shown. *)
Lemma initializePlaylist_run g config fuel net w html :
  configured g config ->
  videos_grid w = Some html ->
  initialize fuel g net w =
  match fetchPlaylistVideos fuel g net (set_videos_grid w loading_html) with
  | (Returned videos, w2) =>
      match render videos w2 with
      | (Thrown e, w3) =>
          showError g (load_error_prefix ++ message engine_message e) w3
      | r => r
      end
  | (Thrown e, w2) =>
      showError g (load_error_prefix ++ message engine_message e) w2
  | (OutOfFuel, w2) => (OutOfFuel, w2)
  end.
Proof.
  intros [Hc [Hk [Hp Hi]]] Hg. unfold initializePlaylist.
  rewrite Hc, (credential_accepted config Hk Hp), Hi. cbn [negb].
  unfold loading_html, load_error_prefix.
  unfold bind at 1, showLoading, set_grid. rewrite Hg.
  unfold try_catch. unfold bind at 1.
  destruct (fetchPlaylistVideos fuel g net _) as [[videos|e|] w2];
    [|reflexivity|reflexivity].
  destruct (render videos w2) as [[[]|e|] w3]; reflexivity.
Qed.

(** X12.  On a page without the grid element [initializePlaylist] throws
    the engine's [TypeError] at its first write, whatever the
    configuration, leaving everything as it was: no request is made. *)
Theorem initializePlaylist_without_grid fuel g net w :
  videos_grid w = None ->
  initialize fuel g net w = (Thrown (TypeError (lit "innerHTML")), w).
Proof.
  intros Hg.
  destruct (configured_or_not g) as [U | [config [Hc [Hk [Hp Hi]]]]].
  - destruct (initializePlaylist_unconfigured toLocaleDateString_es
                parseInt_toLocaleString_es engine_message g U)
      as [message [_ [Hrun _]]].
    rewrite Hrun, showError_run, Hg. reflexivity.
  - unfold initializePlaylist.
    rewrite Hc, (credential_accepted config Hk Hp), Hi. cbn [negb].
    unfold bind at 1, showLoading, set_grid. rewrite Hg. reflexivity.
Qed.

Lemma showError_shown g message w html :
  videos_grid w = Some html ->
  showError g message w
  = (Returned tt, set_videos_grid w (error_html g message)).
Proof. intros Hg. rewrite showError_run, Hg. reflexivity. Qed.

(** X13.  On a page that has the grid element, whatever the
    configuration and the provider, [initializePlaylist] never throws:
    when it comes to an end it returns, and the grid then shows an error
    message, the no-videos message or the cards of a non-empty list, never
    the loading markup. *)
Theorem initializePlaylist_settles fuel g net w html :
  videos_grid w = Some html ->
  fst (initialize fuel g net w) <> OutOfFuel ->
  fst (initialize fuel g net w) = Returned tt
  /\ exists markup,
       videos_grid (snd (initialize fuel g net w)) = Some markup
       /\ markup <> loading_html
       /\ ((exists message, markup = error_html g message)
           \/ markup = no_videos_html
           \/ (exists videos l,
                  videos <> []
                  /\ cards_of videos = Returned l
                  /\ markup = concat l)).
Proof.
  intros Hg Hfuel.
  destruct (configured_or_not g) as [U | [config Hconf]].
  - destruct (initializePlaylist_unconfigured toLocaleDateString_es
                parseInt_toLocaleString_es engine_message g U)
      as [message [_ [Hrun _]]].
    rewrite Hrun, (showError_shown g message w html Hg). cbn [fst snd].
    split; [reflexivity|]. exists (error_html g message).
    split; [reflexivity|]. split; [apply error_html_not_loading|].
    left. exists message. reflexivity.
  - rewrite (initializePlaylist_run g config fuel net w html Hconf Hg) in *.
    destruct (fetchPlaylistVideos_frame fuel g net
                (set_videos_grid w loading_html)) as [Fg _].
    destruct (fetchPlaylistVideos fuel g net (set_videos_grid w loading_html))
      as [[videos|e|] w2]; cbn [fst snd] in Fg.
    + destruct (renderVideos_cases toLocaleDateString_es
                  parseInt_toLocaleString_es videos w2 loading_html Fg)
        as [[_ E] | [[l [Hne [El E]]] | [_ E]]]; rewrite E in *.
      * cbn [fst snd videos_grid set_videos_grid].
        split; [reflexivity|]. exists no_videos_html.
        split; [reflexivity|]. split; [apply no_videos_html_not_loading|].
        right. left. reflexivity.
      * split; [reflexivity|]. exists (concat l).
        split; [destruct (videos_note w2); reflexivity|].
        split.
        -- destruct (cards_outcome toLocaleDateString_es
                       parseInt_toLocaleString_es videos)
             as [[l' [El' [_ Hshape]]] | El']; rewrite El' in El;
             [|discriminate El].
           injection El as <-. destruct (Hshape Hne) as [t ->].
           apply article_not_loading.
        -- right. right. exists videos, l. repeat split; assumption.
      * rewrite (showError_shown g _ w2 loading_html Fg). cbn [fst snd].
        split; [reflexivity|]. eexists. split; [reflexivity|].
        split; [apply error_html_not_loading|]. left. eexists. reflexivity.
    + rewrite (showError_shown g _ w2 loading_html Fg). cbn [fst snd].
      split; [reflexivity|]. eexists. split; [reflexivity|].
      split; [apply error_html_not_loading|]. left. eexists. reflexivity.
    + exfalso. apply Hfuel. reflexivity.
Qed.

End Loading.

(** ** From the start of [initializePlaylist] to the page *)

Section EndToEnd.

Variable toLocaleDateString_es : jsstring -> jsstring.
Variable parseInt_toLocaleString_es : jsstring -> jsstring.
Variable engine_message : exn -> jsstring.

Variable g : Globals.
Variable net : Network.
Variable config : Config.
Hypothesis preconditions : configured g config.

Local Abbreviation card_of :=
  (createVideoCard toLocaleDateString_es parseInt_toLocaleString_es).
Local Abbreviation initialize :=
  (initializePlaylist toLocaleDateString_es parseInt_toLocaleString_es
     engine_message).
Local Abbreviation page := (page_response g net config).
Local Abbreviation after := (listing_requests g config).
Local Abbreviation details := (details_response net config).
Local Abbreviation pages := (all_pages g net config).

(** X14.  With the preconditions met, a complete listing, a successful
    detail response and durations that all contain [PT], on a page that
    has the grid element, [initializePlaylist] returns having made one
    request per page and one detail request; the grid shows the cards of
    the joined videos, one per record and in the order of the playlist,
    and the summary element, when there is one, their number. *)
Theorem initializePlaylist_shows_playlist batches log tok fuel w html :
  videos_grid w = Some html ->
  served g net config (requests w) [] batches log tok ->
  ok (page log tok) = true ->
  truthy_opt (Page.nextPageToken (json (page log tok))) = false ->
  length batches < fuel ->
  ok (details (after log tok) (concat (pages batches log tok))) = true ->
  concat (pages batches log tok) <> [] ->
  (forall video,
      In video (videosWithDetails (concat (pages batches log tok))
                  (json (details (after log tok)
                           (concat (pages batches log tok))))) ->
      has_PT (Enriched.duration video)) ->
  exists l,
    Forall2 (fun video card => card_of video = Returned card)
      (videosWithDetails (concat (pages batches log tok))
         (json (details (after log tok) (concat (pages batches log tok))))) l
    /\ length l = length (concat (pages batches log tok))
    /\ fst (initialize fuel g net w) = Returned tt
    /\ videos_grid (snd (initialize fuel g net w)) = Some (concat l)
    /\ videos_note (snd (initialize fuel g net w))
       = option_map
           (fun _ => summary (length (concat (pages batches log tok))))
           (videos_note w)
    /\ requests (snd (initialize fuel g net w))
       = after log tok
         ++ [details_request config (concat (pages batches log tok))]
    /\ console (snd (initialize fuel g net w)) = console w.
Proof.
  intros Hg Hs Hok Hnone Hfuel Hd Hne Hpt.
  destruct (cards_return toLocaleDateString_es parseInt_toLocaleString_es _ Hpt)
    as [l [El Hl]].
  exists l. split; [exact Hl|].
  assert (Hlen : length (videosWithDetails (concat (pages batches log tok))
                           (json (details (after log tok)
                                    (concat (pages batches log tok)))))
                 = length (concat (pages batches log tok)))
    by (unfold videosWithDetails; apply length_map).
  split; [rewrite <- Hlen; symmetry; exact (Forall2_length Hl)|].
  rewrite (initializePlaylist_run toLocaleDateString_es
             parseInt_toLocaleString_es engine_message g config fuel net w html
             preconditions Hg).
  destruct preconditions as [Hc _].
  rewrite (fetchPlaylistVideos_after_pages g net config Hc _ _ _ _
             (fetch_pages_complete g net config Hc batches log tok fuel
                (set_videos_grid w loading_html) Hs Hok Hnone Hfuel)).
  cbv zeta. rewrite set_requests_requests, Hd, set_requests_twice.
  rewrite (renderVideos_nonempty toLocaleDateString_es
             parseInt_toLocaleString_es _ l _ loading_html);
    [| intros E; apply Hne;
       apply length_zero_iff_nil; rewrite <- Hlen, E; reflexivity
     | exact El
     | reflexivity].
  rewrite Hlen.
  cbn [videos_note set_requests set_videos_grid].
  destruct (videos_note w) eqn:En;
    cbn [fst snd videos_grid videos_note requests console set_videos_note
         set_videos_grid set_requests option_map];
    rewrite ?En; unfold listing_requests; repeat split; reflexivity.
Qed.

(** X15.  With the preconditions met, on a page that has the grid
    element, a listing response that is not a success ends
    [initializePlaylist] in the error state: it returns, the grid shows
    the error markup whose message names the status of that response, the
    refused request is the last one made, and the summary element is as
    it was. *)
Theorem initializePlaylist_shows_refusal batches log tok fuel w html :
  videos_grid w = Some html ->
  served g net config (requests w) [] batches log tok ->
  ok (page log tok) = false ->
  length batches < fuel ->
  fst (initialize fuel g net w) = Returned tt
  /\ videos_grid (snd (initialize fuel g net w))
     = Some (error_html g
               (lit "Error al cargar los vídeos de YouTube. "
                ++ lit "Error al obtener la playlist: "
                ++ of_nat (status (page log tok)) ++ lit " "
                ++ statusText (page log tok)))
  /\ requests (snd (initialize fuel g net w)) = after log tok
  /\ videos_note (snd (initialize fuel g net w)) = videos_note w.
Proof.
  intros Hg Hs Hok Hfuel.
  rewrite (initializePlaylist_run toLocaleDateString_es
             parseInt_toLocaleString_es engine_message g config fuel net w html
             preconditions Hg).
  destruct preconditions as [Hc _].
  rewrite (fetchPlaylistVideos_after_refusal g net _ _ _ _
             (fetch_pages_failing g net config Hc batches log tok fuel
                (set_videos_grid w loading_html) Hs Hok Hfuel)).
  rewrite (showError_shown g _ _ loading_html) by reflexivity.
  unfold load_error_prefix, playlist_error.
  cbn [fst snd message videos_grid videos_note requests set_videos_grid
       set_console set_requests].
  repeat split; reflexivity.
Qed.

(** X16.  With the preconditions met, on a page that has the grid
    element, a playlist without records, given fuel for one turn, still
    gets its detail request, made with an empty list of identifiers;
    [initializePlaylist] then shows the no-videos message and leaves the
    summary element as it was. *)
Theorem initializePlaylist_empty_playlist fuel w html :
  videos_grid w = Some html ->
  ok (page (requests w) []) = true ->
  Page.items (json (page (requests w) [])) = [] ->
  truthy_opt (Page.nextPageToken (json (page (requests w) []))) = false ->
  ok (details (after (requests w) []) []) = true ->
  fst (initialize (S fuel) g net w) = Returned tt
  /\ videos_grid (snd (initialize (S fuel) g net w)) = Some no_videos_html
  /\ videos_note (snd (initialize (S fuel) g net w)) = videos_note w
  /\ requests (snd (initialize (S fuel) g net w))
     = requests w
       ++ [playlistUrl (YOUTUBE_PLAYLIST_ID g) config [];
           videosUrl config []].
Proof.
  intros Hg Hok Hitems Hnone Hd.
  rewrite (initializePlaylist_run toLocaleDateString_es
             parseInt_toLocaleString_es engine_message g config (S fuel) net w
             html preconditions Hg).
  destruct preconditions as [Hc _].
  rewrite (fetchPlaylistVideos_after_pages g net config Hc _ _ _ _
             (fetch_pages_last g net config Hc fuel [] []
                (set_videos_grid w loading_html) Hok Hnone)).
  cbv zeta. cbn [requests set_videos_grid] in *. rewrite Hitems.
  cbn [app]. rewrite set_requests_requests, Hd.
  unfold renderVideos, videosWithDetails. cbn [map length Nat.eqb].
  unfold set_grid. cbn [videos_grid set_requests set_videos_grid].
  cbn [fst snd videos_grid videos_note requests set_videos_grid set_requests].
  unfold listing_requests, details_request. cbn [map join].
  rewrite <- app_assoc. repeat split; reflexivity.
Qed.

End EndToEnd.

(** *** Concrete runs of [initializePlaylist] *)

Lemma sample_configured : configured Sample.globals Sample.config.
Proof.
  repeat split; try reflexivity. vm_compute. discriminate.
Defined.

Lemma initializePlaylist_shows_playlist_witness :
  exists l,
    Forall2 (fun video card => createVideoCard Sample.same Sample.same video
        = Returned card)
      (videosWithDetails (concat
          (all_pages Sample.globals Sample.net Sample.config
          [Sample.first_batch Sample.net] Sample.first_log (lit "T2")))
         (json (details_response Sample.net Sample.config
             (listing_requests Sample.globals Sample.config Sample.first_log
             (lit "T2")) (concat
             (all_pages Sample.globals Sample.net Sample.config
             [Sample.first_batch Sample.net] Sample.first_log (lit "T2")))))) l
    /\ length l = length (concat
        (all_pages Sample.globals Sample.net Sample.config
        [Sample.first_batch Sample.net] Sample.first_log (lit "T2")))
    /\ fst (initializePlaylist Sample.same Sample.same Sample.engine_message 2
          Sample.globals Sample.net Sample.world) = Returned tt
    /\ videos_grid (snd
        (initializePlaylist Sample.same Sample.same Sample.engine_message 2
              Sample.globals Sample.net Sample.world)) = Some (concat l)
    /\ videos_note (snd
        (initializePlaylist Sample.same Sample.same Sample.engine_message 2
              Sample.globals Sample.net Sample.world))
       = option_map
           (fun _ => summary (length (concat
               (all_pages Sample.globals Sample.net Sample.config
               [Sample.first_batch Sample.net] Sample.first_log (lit "T2")))))
           (videos_note Sample.world)
    /\ requests (snd
        (initializePlaylist Sample.same Sample.same Sample.engine_message 2
              Sample.globals Sample.net Sample.world))
       = listing_requests Sample.globals Sample.config Sample.first_log
             (lit "T2")
         ++ [details_request Sample.config (concat
             (all_pages Sample.globals Sample.net Sample.config
             [Sample.first_batch Sample.net] Sample.first_log (lit "T2")))]
    /\ console (snd
        (initializePlaylist Sample.same Sample.same Sample.engine_message 2
              Sample.globals Sample.net Sample.world)) = console Sample.world.
Proof.
  apply (initializePlaylist_shows_playlist Sample.same Sample.same
           Sample.engine_message Sample.globals Sample.net Sample.config
           sample_configured [Sample.first_batch Sample.net] Sample.first_log
           (lit "T2") 2 Sample.world []).
  - reflexivity.
  - apply sample_first_page_served; vm_compute; reflexivity.
  - vm_compute. reflexivity.
  - vm_compute. reflexivity.
  - simpl. lia.
  - vm_compute. reflexivity.
  - vm_compute. discriminate.
  - intros video H. vm_compute in H.
    destruct H as [<- | [<- | [<- | []]]].
    + exists [], (lit "15M33S"). vm_compute. reflexivity.
    + exists [], (lit "0S"). vm_compute. reflexivity.
    + exists [], (lit "2H15M33S"). vm_compute. reflexivity.
Defined.

Lemma initializePlaylist_shows_refusal_witness :
  fst (initializePlaylist Sample.same Sample.same Sample.engine_message 2
        Sample.globals Sample.net_refusing_page Sample.world) = Returned tt
  /\ videos_grid (snd
      (initializePlaylist Sample.same Sample.same Sample.engine_message 2
            Sample.globals Sample.net_refusing_page Sample.world))
     = Some (error_html Sample.globals
               (lit "Error al cargar los vídeos de YouTube. "
                ++ lit "Error al obtener la playlist: "
                ++ of_nat (status
                    (page_response Sample.globals Sample.net_refusing_page
                          Sample.config Sample.first_log (lit "T2"))) ++ lit " "
                ++ statusText
                    (page_response Sample.globals Sample.net_refusing_page
                          Sample.config Sample.first_log (lit "T2"))))
  /\ requests (snd
      (initializePlaylist Sample.same Sample.same Sample.engine_message 2
            Sample.globals Sample.net_refusing_page Sample.world))
            = listing_requests Sample.globals Sample.config Sample.first_log
            (lit "T2")
  /\ videos_note (snd
      (initializePlaylist Sample.same Sample.same Sample.engine_message 2
            Sample.globals Sample.net_refusing_page Sample.world))
            = videos_note Sample.world.
Proof.
  apply (initializePlaylist_shows_refusal Sample.same Sample.same
           Sample.engine_message Sample.globals Sample.net_refusing_page
           Sample.config sample_configured
           [Sample.first_batch Sample.net_refusing_page] Sample.first_log
           (lit "T2") 2 Sample.world []).
  - reflexivity.
  - apply sample_first_page_served; vm_compute; reflexivity.
  - vm_compute. reflexivity.
  - simpl. lia.
Defined.

Example refusal_on_the_page :
  videos_grid
    (snd (initializePlaylist Sample.same Sample.same Sample.engine_message 2
            Sample.globals Sample.net_refusing_page Sample.world))
  = Some (error_html Sample.globals
            (lit "Error al cargar los vídeos de YouTube. Error al obtener la playlist: 403 Forbidden")).
Proof. vm_compute. reflexivity. Qed.

Lemma initializePlaylist_empty_playlist_witness :
  fst (initializePlaylist Sample.same Sample.same Sample.engine_message
      (S 0) Sample.globals Scenario.empty_playlist Sample.world) = Returned tt
  /\ videos_grid (snd
      (initializePlaylist Sample.same Sample.same Sample.engine_message
      (S 0) Sample.globals Scenario.empty_playlist Sample.world))
      = Some no_videos_html
  /\ videos_note (snd
      (initializePlaylist Sample.same Sample.same Sample.engine_message
      (S 0) Sample.globals Scenario.empty_playlist Sample.world))
      = videos_note Sample.world
  /\ requests (snd
      (initializePlaylist Sample.same Sample.same Sample.engine_message
      (S 0) Sample.globals Scenario.empty_playlist Sample.world))
     = requests Sample.world
       ++ [playlistUrl (YOUTUBE_PLAYLIST_ID Sample.globals) Sample.config [];
           videosUrl Sample.config []].
Proof.
  apply (initializePlaylist_empty_playlist Sample.same Sample.same
           Sample.engine_message Sample.globals Scenario.empty_playlist
           Sample.config sample_configured 0 Sample.world []);
    vm_compute; reflexivity.
Defined.

Lemma initializePlaylist_without_grid_witness :
  initializePlaylist Sample.same Sample.same Sample.engine_message 3
    Sample.globals Sample.net Scenario.world_without_grid
  = (Thrown (TypeError (lit "innerHTML")), Scenario.world_without_grid).
Proof.
  apply (initializePlaylist_without_grid Sample.same Sample.same
           Sample.engine_message 3 Sample.globals Sample.net
           Scenario.world_without_grid).
  reflexivity.
Defined.

Lemma initializePlaylist_settles_witness :
  fst (initializePlaylist Sample.same Sample.same Sample.engine_message 2
        Sample.globals Sample.net Sample.world) = Returned tt
  /\ exists markup,
       videos_grid (snd
           (initializePlaylist Sample.same Sample.same Sample.engine_message 2
                 Sample.globals Sample.net Sample.world)) = Some markup
       /\ markup <> loading_html
       /\ ((exists message, markup = error_html Sample.globals message)
           \/ markup = no_videos_html
           \/ (exists videos l,
                  videos <> []
                  /\ cards Sample.same Sample.same videos = Returned l
                  /\ markup = concat l)).
Proof.
  apply (initializePlaylist_settles Sample.same Sample.same
           Sample.engine_message 2 Sample.globals Sample.net Sample.world []).
  - reflexivity.
  - vm_compute. discriminate.
Defined.

(** ** When a list can be rendered *)

Section Renderable.

Variable toLocaleDateString_es : jsstring -> jsstring.
Variable parseInt_toLocaleString_es : jsstring -> jsstring.

Local Abbreviation card_of :=
  (createVideoCard toLocaleDateString_es parseInt_toLocaleString_es).
Local Abbreviation cards_of :=
  (cards toLocaleDateString_es parseInt_toLocaleString_es).
Local Abbreviation render :=
  (renderVideos toLocaleDateString_es parseInt_toLocaleString_es).

Lemma createVideoCard_returned_has_PT video card :
  card_of video = Returned card -> has_PT (Enriched.duration video).
Proof.
  unfold createVideoCard, formatDuration. intros H.
  destruct (regex_match (Enriched.duration video)) as [caps|] eqn:E;
    [|discriminate H].
  exact (regex_match_has_PT _ _ E).
Qed.

Lemma cards_returned_has_PT videos :
  forall l, cards_of videos = Returned l ->
            forall video, In video videos -> has_PT (Enriched.duration video).
Proof.
  induction videos as [|v videos IH]; intros l H video Hin; [contradiction|].
  cbn [cards] in H.
  destruct (card_of v) as [card|e|] eqn:Ec; try discriminate H.
  destruct (cards_of videos) as [l'|e|] eqn:El; try discriminate H.
  destruct Hin as [<- | Hin].
  - exact (createVideoCard_returned_has_PT _ _ Ec).
  - exact (IH l' eq_refl video Hin).
Qed.

(** X17.  On a page that has the grid element, [renderVideos] returns
    exactly when the duration of every video of the list contains [PT]:
    one video whose duration holds none makes it throw, and then, the
    page being left as it was, none of the other videos is shown
    either. *)
Theorem renderVideos_returns_iff videos w html :
  videos_grid w = Some html ->
  (fst (render videos w) = Returned tt
   <-> forall video, In video videos -> has_PT (Enriched.duration video))
  /\ (fst (render videos w) <> Returned tt -> snd (render videos w) = w).
Proof.
  intros Hg.
  destruct (renderVideos_cases toLocaleDateString_es parseInt_toLocaleString_es
              videos w html Hg)
    as [[-> E] | [[l [Hne [El E]]] | [Hne E]]]; rewrite E; cbn [fst snd].
  - split; [|intros H; contradiction H; reflexivity].
    split; [intros _ video []|reflexivity].
  - split; [|intros H; contradiction H; reflexivity].
    split; [intros _|reflexivity].
    exact (cards_returned_has_PT videos l El).
  - split; [|reflexivity]. split; [discriminate|].
    intros Hpt.
    destruct (cards_return toLocaleDateString_es parseInt_toLocaleString_es
                videos Hpt) as [l [El _]].
    rewrite (renderVideos_nonempty toLocaleDateString_es
               parseInt_toLocaleString_es videos l w html Hne El Hg) in E.
    discriminate E.
Qed.

End Renderable.

Lemma renderVideos_returns_iff_witness :
  (fst (renderVideos Sample.same Sample.same Sample.live_videos Sample.world)
   = Returned tt
   <-> forall video, In video Sample.live_videos ->
                     has_PT (Enriched.duration video))
  /\ (fst (renderVideos Sample.same Sample.same Sample.live_videos Sample.world)
      <> Returned tt ->
      snd (renderVideos Sample.same Sample.same Sample.live_videos Sample.world)
      = Sample.world).
Proof.
  apply (renderVideos_returns_iff Sample.same Sample.same Sample.live_videos
           Sample.world []).
  reflexivity.
Defined.
